(** * MONAI Bootcamp 2020, lab 2: the notebook's glue code

    A shallow embedding of the Python cells of
    [day1notebooks/lab2_end_to_end.ipynb] that carry logic of their own:
    the data directory set-up (cell 4), the download guard (cell 6), the
    file enumeration (cell 10), the two train/validation/test partitionings
    (cells 14 and 36), [MedNISTDataset] (cell 18), the hand-rolled training
    loop (cell 22) and the tidy-up (cell 40).

    Library calls (numpy's generators, [os], [tempfile], [shutil], MONAI's
    [download_and_extract], torch) are interfaces: type classes whose
    operations the cells call.  Python exceptions are an error monad. *)

From Stdlib Require Import ZArith QArith Lia SpecFloat.
From stdpp Require Import base option list sorting strings gmap.

Local Open Scope Z_scope.

(** ** Python values the cells use *)

Module Py.

(** The exceptions that can leave a cell: [IndexError] and [ValueError] are
    raised by the cells' own subscripts and unpackings, everything else
    comes out of a library call. *)
Inductive exn : Type :=
| IndexError
| ValueError
| LibraryError (what : string).

Inductive result (A : Type) : Type :=
| Ok (a : A)
| Raise (e : exn).
Arguments Ok {A} a.
Arguments Raise {A} e.

Global Instance result_ret : MRet result := @Ok.
Global Instance result_bind : MBind result := fun A B k r =>
  match r with
  | Ok a => k a
  | Raise e => Raise e
  end.

Global Instance result_fmap : FMap result := fun A B f r =>
  match r with
  | Ok a => Ok (f a)
  | Raise e => Raise e
  end.

(** [len(l)] *)
Definition len {A} (l : list A) : Z := Z.of_nat (length l).

(** [l[i]] on a list, a tuple or a one-dimensional array: a negative
    subscript counts from the end, anything outside raises [IndexError]. *)
Definition getitem {A} (l : list A) (i : Z) : result A :=
  let j := if i <? 0 then i + len l else i in
  if j <? 0 then Raise IndexError
  else match l !! Z.to_nat j with
       | Some x => Ok x
       | None => Raise IndexError
       end.

(** [range(n)] *)
Definition range (n : nat) : list Z := Z.of_nat <$> seq 0 n.

(** [sum(l)] on integers *)
Definition sum (l : list Z) : Z := foldl Z.add 0 l.

(** The bounds Python gives a slice [start:stop] of a sequence of length
    [n] (step 1): negative bounds count from the end, then both are clipped
    to [0, n]. *)
Definition slice_bound (n : nat) (i : Z) : nat :=
  let j := if i <? 0 then i + Z.of_nat n else i in
  Z.to_nat (Z.min (Z.max j 0) (Z.of_nat n)).

(** [a[start:stop] = v] on an array: the scalar is written to every slot
    of the slice; an empty slice changes nothing. *)
Definition slice_fill {A} (start stop : Z) (v : A) (a : list A) : list A :=
  let i := slice_bound (length a) start in
  let j := slice_bound (length a) stop in
  take i a ++ replicate (j - i)%nat v ++ drop (i + (j - i))%nat a.

(** A [for] loop whose body may raise: the state is threaded through the
    items in order and the first exception ends the loop. *)
Fixpoint for_each {A S} (body : A -> S -> result S) (items : list A) (s : S)
  : result S :=
  match items with
  | [] => Ok s
  | x :: items => s ← body x s; for_each body items s
  end.

(** A list comprehension whose element expression may raise. *)
Fixpoint comprehension {A B} (f : A -> result B) (items : list A)
  : result (list B) :=
  match items with
  | [] => Ok []
  | x :: items =>
      y ← f x; ys ← comprehension f items; Ok (y :: ys)
  end.

End Py.

Import Py.

(** ** Python floats

    A finite non-negative binary64 value is [mant * 2 ^ expo].  The cells
    only multiply, add, compare and take the floor of such values, far from
    overflow and underflow, so an operation is the exact result rounded to
    53 significant bits, ties to even. *)

Module F64.

Record float : Type := mk { mant : Z; expo : Z }.

(** Round [m * 2 ^ e] (with [0 <= m]) to 53 significant bits. *)
Definition round53 (m e : Z) : float :=
  let d := Z.log2 m + 1 - 53 in
  if d <=? 0 then mk m e
  else
    let q := Z.shiftr m d in
    let r := m - Z.shiftl q d in
    let half := Z.shiftl 1 (d - 1) in
    let up := (half <? r) || ((half =? r) && Z.odd q) in
    mk (if up then q + 1 else q) (e + d).

(** [float(n)] for a non-negative [int] *)
Definition of_int (n : Z) : float := round53 n 0.

Definition mul (a b : float) : float :=
  round53 (mant a * mant b) (expo a + expo b).

(** The mantissas of two values brought to their smaller exponent. *)
Definition align (a b : float) : Z * Z :=
  let e := Z.min (expo a) (expo b) in
  (Z.shiftl (mant a) (expo a - e), Z.shiftl (mant b) (expo b - e)).

Definition add (a b : float) : float :=
  let '(x, y) := align a b in round53 (x + y) (Z.min (expo a) (expo b)).

Definition ltb (a b : float) : bool :=
  let '(x, y) := align a b in x <? y.

Definition leb (a b : float) : bool :=
  let '(x, y) := align a b in x <=? y.

(** [math.floor] *)
Definition floor (a : float) : Z :=
  if 0 <=? expo a then Z.shiftl (mant a) (expo a)
  else Z.shiftr (mant a) (- expo a).

(** The literal [0.1]: 0x1.999999999999ap-4. *)
Definition tenth : float := mk 7205759403792794 (-56).

(** The literal [0.2]: 0x1.999999999999ap-3. *)
Definition fifth : float := mk 7205759403792794 (-55).

(** The model against the Standard Library's specification of IEEE 754
    arithmetic: [same_value a s] when [a] is the binary64 value [s], and
    [agrees_with_ieee n] when [0.1 * n] comes out as binary64
    multiplication gives it and its floor is [n // 10]. *)
Definition same_value (a : float) (s : spec_float) : bool :=
  match s with
  | S754_zero false => mant a =? 0
  | S754_finite false m e => leb a (mk (Z.pos m) e) && leb (mk (Z.pos m) e) a
  | _ => false
  end.

Definition ieee (a : float) : spec_float :=
  binary_normalize 53 1024 (mant a) (expo a) false.

Definition agrees_with_ieee (n : Z) : bool :=
  same_value (mul tenth (of_int n))
    (SFmul 53 1024 (ieee tenth) (binary_normalize 53 1024 n 0 false))
  && (floor (mul tenth (of_int n)) =? n / 10).

Fixpoint agrees_from (n : Z) (k : nat) : bool :=
  match k with
  | O => true
  | S k => agrees_with_ieee n && agrees_from (n + 1) k
  end.

End F64.

(** ** Python floats in full

    [loss.item()] can be any binary64 value, an infinity or a NaN as well
    as a number, and the training loops add such values up and divide the
    sum.  A [float] here is a binary64 value as the Standard Library
    specifies IEEE 754 arithmetic, and the operations are its operations,
    rounding to nearest, ties to even. *)

Module Binary64.

Definition float : Type := spec_float.

(** [0.0]; also what the [int] 0 is as soon as a [float] is added to it or
    it is divided *)
Definition zero : float := S754_zero false.

(** [float(n)] of an [int], as [x / n] and [x * n] convert an [int]
    operand; Python raises [OverflowError] from 2^1024 on, far beyond any
    count of batches. *)
Definition of_int (n : Z) : float := binary_normalize 53 1024 n 0 false.

(** [x + y] *)
Definition add (x y : float) : float := SFadd 53 1024 x y.

(** [x * y] *)
Definition mul (x y : float) : float := SFmul 53 1024 x y.

(** [x / y] for a divisor other than zero, where Python raises
    [ZeroDivisionError]; the loops divide by counts that are at least 1. *)
Definition truediv (x y : float) : float := SFdiv 53 1024 x y.

(** [x < y] *)
Definition ltb (x y : float) : bool := SFltb x y.

(** A positive normal number of at least 2^-969: a mantissa of 53 bits and
    an exponent from -1021 to 971. *)
Definition ordinary (x : float) : bool :=
  match x with
  | S754_finite false m e =>
      (Z.pos (digits2_pos m) =? 53) && (-1021 <=? e) && (e <=? 971)
  | _ => false
  end.

(** Where a remainder [x] of a division by [u] lies between 0 and [u], as
    the rounding of the quotient is told. *)
Definition located (l : location) (x u : Z) : Prop :=
  match l with
  | loc_Exact => x = 0
  | loc_Inexact Lt => 0 < x /\ 2 * x < u
  | loc_Inexact Eq => 0 < x /\ 2 * x = u
  | loc_Inexact Gt => u < 2 * x /\ x < u
  end.

End Binary64.

(** ** numpy's random generators

    [np.random.RandomState(seed)] makes a private generator; the functions
    of [np.random] itself draw from one global generator.  A draw returns
    its value and the generator's next state. *)

Class NumpyRandom : Type := {
  RandomState : Type;
  (** [np.random.RandomState(seed)] *)
  new_state : Z -> RandomState;
  (** [.random()]: a sample of the half-open interval [0.0, 1.0) *)
  random : RandomState -> F64.float * RandomState;
  (** [.shuffle(a)]: the array's contents reordered in place *)
  shuffle : RandomState -> list Z -> list Z * RandomState;
  random_unit : forall r,
    0 <= F64.mant (random r).1 /\ F64.ltb (random r).1 (F64.mk 1 0) = true;
  shuffle_perm : forall r a, (shuffle r a).1 ≡ₚ a;
}.

(** ** Cells 14 and 36: the train/validation/test partitionings *)

Module Partition.

(** The six lists both cells leave behind. *)
Record lists : Type := mk {
  train_x : list string; train_y : list Z;
  val_x : list string; val_y : list Z;
  test_x : list string; test_y : list Z;
}.

Definition empty : lists := mk [] [] [] [] [] [].

(** How the two cells' results are described: with one group number per
    item (0 training, 1 validation, 2 test), [select g groups items] is the
    items numbered [g], in their order, and [count g groups] is how many
    there are. *)
Definition select {A} (g : Z) (groups : list Z) (items : list A) : list A :=
  snd <$> filter (fun p => p.1 = g) (zip groups items).

Definition count (g : Z) (groups : list Z) : Z :=
  len (filter (fun x => x = g) groups).

(** *** Cell 14: one draw per item *)

Definition val_frac : F64.float := F64.tenth.
Definition test_frac : F64.float := F64.tenth.

(** The body of [for i in range(num_total)], on the lists built so far and
    the global generator. *)
Definition draw_body `{NumpyRandom} (image_files_list : list string)
    (image_class : list Z) (i : Z) (st : lists * RandomState)
  : result (lists * RandomState) :=
  let '(l, g) := st in
  let '(rann, g) := random g in
  if F64.ltb rann val_frac then
    x ← getitem image_files_list i;
    y ← getitem image_class i;
    Ok (mk (train_x l) (train_y l) (val_x l ++ [x]) (val_y l ++ [y])
           (test_x l) (test_y l), g)
  else if F64.ltb rann (F64.add test_frac val_frac) then
    x ← getitem image_files_list i;
    y ← getitem image_class i;
    Ok (mk (train_x l) (train_y l) (val_x l) (val_y l)
           (test_x l ++ [x]) (test_y l ++ [y]), g)
  else
    x ← getitem image_files_list i;
    y ← getitem image_class i;
    Ok (mk (train_x l ++ [x]) (train_y l ++ [y]) (val_x l) (val_y l)
           (test_x l) (test_y l), g).

(** Cell 14, from the global generator's state [g]: the lists and the
    state the generator is left in. *)
Definition split_by_draw `{NumpyRandom} (num_total : nat)
    (image_files_list : list string) (image_class : list Z) (g : RandomState)
  : result (lists * RandomState) :=
  for_each (draw_body image_files_list image_class) (range num_total) (empty, g).

(** The generator after [k] draws, and the [k]-th value drawn, counting
    from 0. *)
Definition advance `{NumpyRandom} (k : nat) (g : RandomState) : RandomState :=
  Nat.iter k (fun g => (random g).2) g.

Definition draw `{NumpyRandom} (g : RandomState) (k : nat) : F64.float :=
  (random (advance k g)).1.

(** The group number of the branch the cell takes on a draw. *)
Definition bucket (rann : F64.float) : Z :=
  if F64.ltb rann val_frac then 1
  else if F64.ltb rann (F64.add test_frac val_frac) then 2
  else 0.

(** *** Cell 36: a shuffled array of group numbers *)

Definition dataset_seed : Z := 12345678.
Definition validation_proportion : F64.float := F64.tenth.
Definition test_proportion : F64.float := F64.tenth.

Definition validation_count (num_total : nat) : Z :=
  F64.floor (F64.mul validation_proportion (F64.of_int (Z.of_nat num_total))).

Definition test_count (num_total : nat) : Z :=
  F64.floor (F64.mul test_proportion (F64.of_int (Z.of_nat num_total))).

(** [groups] as it stands before the shuffle. *)
Definition initial_groups (num_total : nat) : list Z :=
  let groups := replicate num_total 0 in
  let groups := slice_fill 0 (validation_count num_total) 1 groups in
  slice_fill (validation_count num_total)
             (validation_count num_total + test_count num_total) 2 groups.

(** [sets[g].append(x)] on a tuple of lists: the subscript is resolved
    first, then the argument is evaluated, then the list grows in place. *)
Definition append_to {A} (sets : list (list A)) (g : Z) (x : result A)
  : result (list (list A)) :=
  l ← getitem sets g;
  x ← x;
  let k := Z.to_nat (if g <? 0 then g + len sets else g) in
  Ok (<[k := l ++ [x]]> sets).

(** The body of [for n in range(num_total)]. *)
Definition assign_body (groups : list Z) (image_files_list : list string)
    (image_class : list Z) (n : Z)
    (st : list (list string) * list (list Z))
  : result (list (list string) * list (list Z)) :=
  let '(image_sets, label_sets) := st in
  g ← getitem groups n;
  image_sets ← append_to image_sets g (getitem image_files_list n);
  g ← getitem groups n;
  label_sets ← append_to label_sets g (getitem image_class n);
  Ok (image_sets, label_sets).

(** [a, b, c = t] *)
Definition unpack3 {A} (t : list A) : result (A * A * A) :=
  match t with
  | [a; b; c] => Ok (a, b, c)
  | _ => Raise ValueError
  end.

(** Cell 36 for a given seed.  [g] is the global generator, which the cell
    leaves alone: the shuffle draws from the private generator [r]. *)
Definition split_by_groups `{NumpyRandom} (seed : Z) (num_total : nat)
    (image_files_list : list string) (image_class : list Z) (g : RandomState)
  : result lists * RandomState :=
  let r := new_state seed in
  let groups := initial_groups num_total in
  let '(groups, r) := shuffle r groups in
  (st ← for_each (assign_body groups image_files_list image_class)
        (range num_total) ([[]; []; []], [[]; []; []]);
   let '(image_sets, label_sets) := st in
   '(train_x, val_x, test_x) ← unpack3 image_sets;
   '(train_y, val_y, test_y) ← unpack3 label_sets;
   Ok (mk train_x train_y val_x val_y test_x test_y),
   g).

End Partition.

(** ** Cell 18: [MedNISTDataset] *)

Module Dataset.

Section dataset.
Context {T : Type}.

(** The object's three attributes; [transforms] is the composed callable,
    which loads the file and may raise. *)
Record MedNISTDataset : Type := mk {
  image_files : list string;
  labels : list Z;
  transforms : string -> result T;
}.

(** The constructor stores its arguments as they come. *)
Definition __init__ (image_files : list string) (labels : list Z)
    (transforms : string -> result T) : MedNISTDataset :=
  mk image_files labels transforms.

(** The number of items the loader is told of. *)
Definition __len__ (self : MedNISTDataset) : Z := len (image_files self).

(** The tuple's items are evaluated left to right. *)
Definition __getitem__ (self : MedNISTDataset) (index : Z) : result (T * Z) :=
  file ← getitem (image_files self) index;
  image ← transforms self file;
  label ← getitem (labels self) index;
  Ok (image, label).

End dataset.
Arguments MedNISTDataset : clear implicits.

End Dataset.

(** ** Cell 22: the hand-rolled training loop

    The network, the optimizer and the loaders belong to torch.  What the
    loop's own bookkeeping sees of an epoch is [loss.item()] for every batch
    of [train_loader], in order, and the [compute_roc_auc] of its validation
    pass.  The losses are binary64 values, which the loop adds and divides.
    Of the AUC values it only asks which is larger; they are the rationals
    they stand for. *)

Module Training.

Record epoch_run : Type := mk_run {
  losses : list Binary64.float;
  auc_metric : Q;
}.

(** The loop's variables, and [saved]: the epoch numbers, as printed
    (counted from 1), at which [torch.save] wrote [best_metric_model.pth],
    oldest first. *)
Record state : Type := mk {
  best_metric : Q;
  best_metric_epoch : Z;
  epoch_loss_values : list Binary64.float;
  metric_values : list Q;
  saved : list Z;
}.

Definition initial : state := mk (-1 # 1) (-1) [] [] [].

(** [a > b] on numbers *)
Definition gtb (a b : Q) : bool :=
  (Qnum b * QDen a <? Qnum a * QDen b)%Z.

(** [for batch_data in train_loader]: what it does to [epoch_loss] and
    [step]. *)
Fixpoint batch_loop (losses : list Binary64.float)
    (epoch_loss : Binary64.float) (step : Z) : Binary64.float * Z :=
  match losses with
  | [] => (epoch_loss, step)
  | loss :: losses =>
      batch_loop losses (Binary64.add epoch_loss loss) (step + 1)
  end.

(** The body of [for epoch in range(epoch_num)]. *)
Definition epoch_body (run : Z -> epoch_run) (s : state) (epoch : Z) : state :=
  let epoch_loss := Binary64.zero in
  let step := 1 in
  let '(epoch_loss, step) := batch_loop (losses (run epoch)) epoch_loss step in
  let epoch_loss := Binary64.truediv epoch_loss (Binary64.of_int step) in
  let epoch_loss_values := epoch_loss_values s ++ [epoch_loss] in
  let auc_metric := auc_metric (run epoch) in
  let metric_values := metric_values s ++ [auc_metric] in
  if gtb auc_metric (best_metric s) then
    mk auc_metric (epoch + 1) epoch_loss_values metric_values
       (saved s ++ [epoch + 1])
  else
    mk (best_metric s) (best_metric_epoch s) epoch_loss_values metric_values
       (saved s).

Definition train (epoch_num : nat) (run : Z -> epoch_run) : state :=
  foldl (epoch_body run) initial (range epoch_num).

End Training.

(** ** The operating system and the libraries that touch it *)

Class OS : Type := {
  (** the state of the file system *)
  FS : Type;
  (** [tempfile.mkdtemp()]: the new directory's path; the environment
      decides where temporary directories go *)
  mkdtemp : gmap string string -> FS -> result (string * FS);
  (** [os.path.join(a, *p)] *)
  path_join : string -> list string -> string;
  (** [os.path.exists], [os.path.isdir] *)
  path_exists : FS -> string -> bool;
  path_isdir : FS -> string -> bool;
  (** [os.listdir] *)
  listdir : FS -> string -> result (list string);
  (** [shutil.rmtree] *)
  rmtree : string -> FS -> result FS;
  (** [monai.apps.download_and_extract(url, filepath, output_dir, hash_val)] *)
  download_and_extract : string -> string -> string -> string -> FS -> result FS;
  (** [PIL.Image.open(path).size] *)
  image_size : FS -> string -> result (Z * Z);
  mkdtemp_fresh : forall env fs d fs',
    mkdtemp env fs = Ok (d, fs') ->
    path_exists fs d = false /\ path_isdir fs' d = true;
}.

(** ** Cells 4, 6 and 40: the data directory *)

Module DataDir.

Section cells.
Context `{OS}.

(** Cell 4: [directory] and [root_dir]. *)
Definition setup (environ : gmap string string) (fs : FS)
  : result (option string * string * FS) :=
  let directory := environ !! "MONAI_DATA_DIRECTORY" in
  match directory with
  | None => '(root_dir, fs) ← mkdtemp environ fs; Ok (directory, root_dir, fs)
  | Some d => Ok (directory, d, fs)
  end.

Definition resource : string :=
  "https://www.dropbox.com/s/5wwskxctvcxiuea/MedNIST.tar.gz?dl=1".
Definition md5 : string := "0bc7306e7427e00ad1c5526a6677552d".

(** Cell 6: [data_dir], and the file system after the cell. *)
Definition fetch (root_dir : string) (fs : FS) : result (string * FS) :=
  let compressed_file := path_join root_dir ["MedNIST.tar.gz"] in
  let data_dir := path_join root_dir ["MedNIST"] in
  if negb (path_exists fs data_dir) then
    fs ← download_and_extract resource compressed_file root_dir md5 fs;
    Ok (data_dir, fs)
  else Ok (data_dir, fs).

(** Cell 40 *)
Definition tidy_up (directory : option string) (root_dir : string) (fs : FS)
  : result FS :=
  match directory with
  | None => rmtree root_dir fs
  | Some _ => Ok fs
  end.

End cells.

End DataDir.

(** ** Cell 10: the image files and their labels *)

Module Enumeration.

Section cell.
Context `{OS}.

(** The variables the cell defines. *)
Record listing : Type := mk {
  class_names : list string;
  num_class : nat;
  image_files : list (list string);
  num_each : list Z;
  image_files_list : list string;
  image_class : list Z;
  num_total : nat;
  image_width : Z;
  image_height : Z;
}.

(** [sorted(...)] on strings: Python compares them code point by code
    point, and the order is total, so the result does not depend on the
    sorting algorithm. *)
Definition sorted (l : list string) : list string := merge_sort String.le l.

(** The body of the second loop: [extend] on both lists. *)
Definition extend_body (image_files : list (list string)) (num_each : list Z)
    (i : Z) (st : list string * list Z) : result (list string * list Z) :=
  let '(image_files_list, image_class) := st in
  files ← getitem image_files i;
  let image_files_list := image_files_list ++ files in
  n ← getitem num_each i;
  let image_class := image_class ++ replicate (Z.to_nat n) i in
  Ok (image_files_list, image_class).

(** [path], labelled [c], is a file of the class numbered [c]: an entry of
    that class's directory, joined to it. *)
Definition file_of_class (fs : FS) (data_dir : string)
    (class_names : list string) (path : string) (c : Z) : Prop :=
  exists name xs x,
    0 <= c /\ class_names !! Z.to_nat c = Some name /\
    listdir fs (path_join data_dir [name]) = Ok xs /\
    x ∈ xs /\ path = path_join data_dir [name; x].

Definition enumerate (fs : FS) (data_dir : string) : result listing :=
  entries ← listdir fs data_dir;
  let class_names :=
    sorted (filter (fun x => path_isdir fs (path_join data_dir [x])) entries) in
  let num_class := length class_names in
  image_files ← comprehension (fun i =>
      name ← getitem class_names i;
      xs ← listdir fs (path_join data_dir [name]);
      comprehension (fun x =>
          name ← getitem class_names i;
          Ok (path_join data_dir [name; x])) xs)
    (range num_class);
  num_each ← comprehension (fun i =>
      files ← getitem image_files i; Ok (len files)) (range num_class);
  '(image_files_list, image_class) ←
    for_each (extend_body image_files num_each) (range num_class) ([], []);
  let num_total := length image_class in
  first ← getitem image_files_list 0;
  '(image_width, image_height) ← image_size fs first;
  Ok (mk class_names num_class image_files num_each image_files_list
         image_class num_total image_width image_height).

End cell.

(** The labels that go with per-class file lists: the class number [i]
    once for every file of class [i], class after class. *)
Definition labels_of (image_files : list (list string)) : list Z :=
  mjoin (imap (fun i files => replicate (length files) (Z.of_nat i)) image_files).

End Enumeration.

(** ** Cell 12: the preview *)

Module Preview.

(** What the loop body reads for the image numbered [k]: the file it opens
    and the class name it puts under the picture. *)
Definition subject (r : Enumeration.listing) (k : Z) : result (string * string) :=
  path ← getitem (Enumeration.image_files_list r) k;
  c ← getitem (Enumeration.image_class r) k;
  name ← getitem (Enumeration.class_names r) c;
  Ok (path, name).

End Preview.

(** ** Cells 22 and 32: steps per epoch *)

Module Steps.

(** Cell 22: the total its progress line prints after the step number,
    [len(train_ds) // train_loader.batch_size + 1]. *)
Definition printed_total (length batch_size : Z) : Z :=
  length / batch_size + 1.

(** Cell 32: [steps_per_epoch], computed up front. *)
Definition steps_per_epoch (length batch_size : Z) : Z :=
  let steps_per_epoch := length / batch_size in
  if negb (length mod batch_size =? 0) then steps_per_epoch + 1
  else steps_per_epoch.

End Steps.

(** ** Cell 26: predictions on the test set

    A batch of [test_loader] is seen as its labels and the network's
    predicted classes, [net(test_images).argmax(dim=1)]. *)

Module Evaluation.

(** The body of [for i in range(len(pred))]. *)
Definition item_body (test_labels pred : list Z) (i : Z)
    (st : list Z * list Z) : result (list Z * list Z) :=
  let '(y_true, y_pred) := st in
  t ← getitem test_labels i;
  p ← getitem pred i;
  Ok (y_true ++ [t], y_pred ++ [p]).

(** The body of [for test_data in test_loader]. *)
Definition batch_body (batch : list Z * list Z) (st : list Z * list Z)
  : result (list Z * list Z) :=
  let '(test_labels, pred) := batch in
  for_each (item_body test_labels pred) (range (length pred)) st.

(** The cell: [y_true] and [y_pred]. *)
Definition collect (batches : list (list Z * list Z))
  : result (list Z * list Z) :=
  for_each batch_body batches ([], []).

End Evaluation.

(** ** Cell 32: the loop revisited with Ignite

    The engine belongs to Ignite.  It calls the cell's handlers: after
    every iteration [_end_iter], after every epoch the handlers of
    [EPOCH_COMPLETED] in the order they were added, [run_validation] and
    then the checkpoint handler, which asks [_score].  Losses are binary64
    values and ROC AUC values rationals, as in cell 22. *)

(** [np.average(a, weights=weights)] belongs to numpy, which has its own
    order of adding up.  It returns a number when the two lists are
    equally long and not empty and the weights are positive. *)
Class Numpy : Type := {
  average : list Binary64.float -> list Z -> result Binary64.float;
  average_returns (a : list Binary64.float) (weights : list Z) :
    a <> [] -> length a = length weights ->
    Forall (fun w => 0 < w) weights ->
    exists v, average a weights = Ok v;
}.

Module Ignite.

(** What the engine shows a handler of an iteration:
    [engine.state.output] and [len(engine.state.batch[0])]. *)
Record iteration : Type := mk_iteration {
  output : Binary64.float;
  batch_len : Z;
}.

(** An epoch as the handlers see it: its iterations, and the ROC AUC the
    evaluator reports after it. *)
Record epoch : Type := mk_epoch {
  iterations : list iteration;
  rocauc : Q;
}.

(** The cell's global variables, and [shown]: the step numbers its
    progress lines have printed. *)
Record globals : Type := mk {
  step : Z;
  iter_losses : list Binary64.float;
  batch_sizes : list Z;
  epoch_loss_values : list Binary64.float;
  metric_values : list Q;
  shown : list Z;
}.

Definition initial : globals := mk 1 [] [] [] [] [].

Definition _end_iter (s : globals) (engine : iteration) : globals :=
  let loss := output engine in
  let batch_len := batch_len engine in
  mk (step s + 1) (iter_losses s ++ [loss]) (batch_sizes s ++ [batch_len])
     (epoch_loss_values s) (metric_values s) (shown s ++ [step s]).

Section handlers.
Context {np : Numpy}.

Definition run_validation (roc : Q) (s : globals) : result globals :=
  overall_average_loss ← average (iter_losses s) (batch_sizes s);
  let epoch_loss_values := epoch_loss_values s ++ [overall_average_loss] in
  let metric_values := metric_values s ++ [roc] in
  Ok (mk 1 [] [] epoch_loss_values metric_values (shown s)).

Definition _score (s : globals) : result Q := getitem (metric_values s) (-1).

(** One epoch of [trainer.run]: the globals, and the scores the checkpoint
    handler has been given. *)
Definition epoch_body (e : epoch) (st : globals * list Q)
  : result (globals * list Q) :=
  let '(s, scores) := st in
  let s := foldl _end_iter s (iterations e) in
  s ← run_validation (rocauc e) s;
  score ← _score s;
  Ok (s, scores ++ [score]).

(** [trainer.run(train_loader, train_epochs)] *)
Definition run (epochs : list epoch) : result (globals * list Q) :=
  for_each epoch_body epochs (initial, []).

End handlers.

(** [max(l)]: the first of the largest items. *)
Definition max (l : list Q) : result Q :=
  match l with
  | [] => Raise ValueError
  | x :: l => Ok (foldl (fun m a => if Training.gtb a m then a else m) x l)
  end.

(** [l.index(x)]: the position of the first item equal to [x]. *)
Fixpoint index (l : list Q) (x : Q) : result Z :=
  match l with
  | [] => Raise ValueError
  | a :: l => if Qeq_bool a x then Ok 0 else i ← index l x; Ok (i + 1)
  end.

(** The last two lines of the cell: [best_rocauc] and the epoch they
    print. *)
Definition report (metric_values : list Q) : result (Q * Z) :=
  best_rocauc ← max metric_values;
  i ← index metric_values best_rocauc;
  Ok (best_rocauc, i).

End Ignite.

(** ** Stand-ins for the libraries

    Small executable instances of the two interfaces, on which the cells
    can be run. *)

Module Demo.

(** A 64-bit linear congruential generator; its shuffle rotates the array
    by the next draw. *)
Definition lcg (s : Z) : Z :=
  (s * 6364136223846793005 + 1442695040888963407) mod 2 ^ 64.

Definition lcg_random (s : Z) : F64.float * Z :=
  let s := lcg s in (F64.mk (Z.shiftr s 11) (-53), s).

Definition lcg_shuffle (s : Z) (a : list Z) : list Z * Z :=
  let s := lcg s in
  let k := Z.to_nat (s mod 7) in
  (drop k a ++ take k a, s).

Lemma lcg_random_unit (s : Z) :
  0 <= F64.mant (lcg_random s).1 /\
  F64.ltb (lcg_random s).1 (F64.mk 1 0) = true.
Proof.
  unfold lcg_random, lcg. simpl.
  set (t := (s * 6364136223846793005 + 1442695040888963407) mod 2 ^ 64).
  assert (0 <= t < 2 ^ 64) as Ht by (apply Z.mod_pos_bound; lia).
  rewrite Z.shiftr_div_pow2 by lia.
  assert (0 <= t / 2 ^ 11 < 2 ^ 53) as Hq.
  { split; [apply Z.div_pos; lia|].
    apply Z.div_lt_upper_bound; [lia|]. change (2 ^ 11 * 2 ^ 53) with (2 ^ 64). lia. }
  split; [lia|]. unfold F64.ltb, F64.align. cbn [F64.mant F64.expo].
  change (Z.min (-53) 0) with (-53). change (0 - -53) with 53.
  change (-53 - -53) with 0. rewrite Z.shiftl_0_r.
  apply Z.ltb_lt. change (Z.shiftl 1 53) with (2 ^ 53). lia.
Qed.

Lemma lcg_shuffle_perm (s : Z) (a : list Z) : (lcg_shuffle s a).1 ≡ₚ a.
Proof.
  unfold lcg_shuffle. simpl.
  rewrite Permutation_app_comm. by rewrite take_drop.
Qed.

Definition numpy : NumpyRandom := {|
  RandomState := Z;
  new_state := fun seed => seed mod 2 ^ 32;
  random := lcg_random;
  shuffle := lcg_shuffle;
  random_unit := lcg_random_unit;
  shuffle_perm := lcg_shuffle_perm;
|}.

(** A file system that is a map from each directory's path to the names
    in it; paths are joined the POSIX way. *)
Definition ends_with_slash (s : string) : bool :=
  bool_decide (String.substring (String.length s - 1) 1 s = "/").

Definition join2 (a b : string) : string :=
  if String.prefix "/" b then b
  else if bool_decide (a = "") || ends_with_slash a then a +:+ b
  else a +:+ "/" +:+ b.

Definition posix_join (a : string) (p : list string) : string :=
  foldl join2 a p.

Definition is_dir (fs : gmap string (list string)) (p : string) : bool :=
  bool_decide (is_Some (fs !! p)).

Definition list_dir (fs : gmap string (list string)) (p : string)
  : result (list string) :=
  match fs !! p with
  | Some names => Ok names
  | None => Raise (LibraryError "FileNotFoundError")
  end.

Definition make_temp (env : gmap string string) (fs : gmap string (list string))
  : result (string * gmap string (list string)) :=
  let d := fresh (dom fs) in Ok (d, <[d := []]> fs).

Definition remove_tree (p : string) (fs : gmap string (list string))
  : result (gmap string (list string)) :=
  if is_dir fs p then Ok (delete p fs)
  else Raise (LibraryError "FileNotFoundError").

Definition extract (url file out hash : string) (fs : gmap string (list string))
  : result (gmap string (list string)) :=
  if is_dir fs out then Ok (<[posix_join out ["MedNIST"] := []]> fs)
  else Raise (LibraryError "FileNotFoundError").

Lemma make_temp_fresh env fs d fs' :
  make_temp env fs = Ok (d, fs') -> is_dir fs d = false /\ is_dir fs' d = true.
Proof.
  unfold make_temp, is_dir. intros [= <- <-].
  pose proof (is_fresh (dom fs)) as Hfresh.
  rewrite elem_of_dom in Hfresh. rewrite lookup_insert_eq.
  split; [by apply bool_decide_eq_false | by apply bool_decide_eq_true].
Qed.

(** The same file system with images that cannot be opened. *)
Definition unreadable_size
    (fs : gmap string (list string)) (path : string) : result (Z * Z) :=
  Raise (LibraryError "UnidentifiedImageError").

Definition os : OS := {|
  FS := gmap string (list string);
  mkdtemp := make_temp;
  path_join := posix_join;
  path_exists := is_dir;
  path_isdir := is_dir;
  listdir := list_dir;
  rmtree := remove_tree;
  download_and_extract := extract;
  image_size := fun _ _ => Ok (64, 64);
  mkdtemp_fresh := make_temp_fresh;
|}.

Definition broken_os : OS := {|
  FS := gmap string (list string);
  mkdtemp := make_temp;
  path_join := posix_join;
  path_exists := is_dir;
  path_isdir := is_dir;
  listdir := list_dir;
  rmtree := remove_tree;
  download_and_extract := extract;
  image_size := unreadable_size;
  mkdtemp_fresh := make_temp_fresh;
|}.

(** A disk with the extracted dataset under [/data]: two class
    directories and a stray file. *)
Definition disk : gmap string (list string) :=
  <["/data" := ["MedNIST"]]>
  (<["/data/MedNIST" := ["Hand"; "README.md"; "CXR"]]>
  (<["/data/MedNIST/Hand" := ["1.jpeg"; "0.jpeg"]]>
  (<["/data/MedNIST/CXR" := ["a.jpeg"]]> ∅))).

(** A disk whose only class directory is empty. *)
Definition bare_disk : gmap string (list string) :=
  <["/bare/MedNIST" := ["Hand"; "notes.txt"]]>
  (<["/bare/MedNIST/Hand" := []]> ∅).

(** The names in the two class directories of [disk]. *)
Definition contents (name : string) : list string :=
  if bool_decide (name = "CXR") then ["a.jpeg"] else ["1.jpeg"; "0.jpeg"].

(** The floats [0.5], [0.25], [0.125], and the one nearest to a third,
    [0.3333333333333333]. *)
Definition half : Binary64.float := S754_finite false 4503599627370496 (-53).
Definition quarter : Binary64.float :=
  S754_finite false 4503599627370496 (-54).
Definition eighth : Binary64.float :=
  S754_finite false 4503599627370496 (-55).
Definition third : Binary64.float := S754_finite false 6004799503160661 (-54).

(** A weighted average for short lists: the products added from the left
    and divided by the sum of the weights, which is exact below 2^53. *)
Definition weighted_mean (a : list Binary64.float) (weights : list Z)
  : result Binary64.float :=
  if negb (length a =? length weights)%nat then Raise (LibraryError "TypeError")
  else
    let scl := sum weights in
    if scl =? 0 then Raise (LibraryError "ZeroDivisionError")
    else
      Ok (Binary64.truediv
            (foldl Binary64.add Binary64.zero
               (zip_with (fun x w => Binary64.mul x (Binary64.of_int w))
                  a weights))
            (Binary64.of_int scl)).

Lemma weighted_mean_returns (a : list Binary64.float) (weights : list Z) :
  a <> [] -> length a = length weights ->
  Forall (fun w => 0 < w) weights ->
  exists v, weighted_mean a weights = Ok v.
Proof.
  intros Hne Hlen Hpos. unfold weighted_mean.
  rewrite Hlen, Nat.eqb_refl. cbn [negb].
  assert (forall t, 0 <= t -> weights <> [] -> 0 < foldl Z.add t weights)
    as Hsum.
  { clear Hlen. induction Hpos as [|w ws Hw _ IH]; intros t Ht Hws; [done|].
    cbn [foldl]. destruct ws as [|w' ws]; [simpl; lia|].
    apply IH; [lia|done]. }
  assert (weights <> []) as Hws by (by destruct a, weights).
  specialize (Hsum 0 ltac:(lia) Hws). unfold sum.
  destruct (Z.eqb_spec (foldl Z.add 0 weights) 0); [lia|eauto].
Qed.

Definition numpy_average : Numpy := {|
  average := weighted_mean;
  average_returns := weighted_mean_returns;
|}.

(** Two epochs of the Ignite loop, two full batches each. *)
Definition epochs : list Ignite.epoch :=
  [Ignite.mk_epoch [Ignite.mk_iteration half 512;
                    Ignite.mk_iteration quarter 512] (7 # 10)%Q;
   Ignite.mk_epoch [Ignite.mk_iteration eighth 512;
                    Ignite.mk_iteration eighth 512] (9 # 10)%Q].

(** An environment that names the data directory. *)
Definition environ : gmap string string :=
  <["MONAI_DATA_DIRECTORY" := "/data"]> (<["TMPDIR" := "/scratch"]> ∅).

(** Ten image files of three classes, as cell 10 would list them. *)
Definition files : list string :=
  ["/d/A/0.jpeg"; "/d/A/1.jpeg"; "/d/A/2.jpeg"; "/d/A/3.jpeg";
   "/d/B/0.jpeg"; "/d/B/1.jpeg"; "/d/B/2.jpeg";
   "/d/C/0.jpeg"; "/d/C/1.jpeg"; "/d/C/2.jpeg"].

Definition classes : list Z := [0; 0; 0; 0; 1; 1; 1; 2; 2; 2].

(** Three epochs of two batches each; the second epoch validates best. *)
Definition run (epoch : Z) : Training.epoch_run :=
  Training.mk_run [half; third] (if epoch =? 1 then 9 # 10 else 1 # 2)%Q.

(** An epoch of one batch whose loss is zero. *)
Definition run_zero (epoch : Z) : Training.epoch_run :=
  Training.mk_run [Binary64.zero] (1 # 2)%Q.

End Demo.

(** * Properties *)

(** ** Python values *)

Section py_facts.
Context {A : Type}.
Implicit Types (l : list A) (i : Z).

Lemma bind_ok {B C} (r : result B) (k : B -> result C) (c : C) :
  r ≫= k = Ok c -> exists b, r = Ok b /\ k b = Ok c.
Proof. destruct r as [b|e]; [eauto | discriminate]. Qed.

Lemma getitem_nat l (n : nat) (x : A) :
  l !! n = Some x -> getitem l (Z.of_nat n) = Ok x.
Proof.
  intros Hx. unfold getitem.
  destruct (Z.ltb_spec (Z.of_nat n) 0) as [?|_]; [lia|].
  destruct (Z.ltb_spec (Z.of_nat n) 0) as [?|_]; [lia|].
  by rewrite Nat2Z.id, Hx.
Qed.

Lemma getitem_ok l i (x : A) :
  getitem l i = Ok x ->
  - len l <= i < len l /\
  l !! Z.to_nat (if i <? 0 then i + len l else i) = Some x.
Proof.
  unfold getitem, len. intros Hget.
  set (j := if i <? 0 then _ else _) in *.
  destruct (Z.ltb_spec j 0) as [?|Hj]; [discriminate|].
  destruct (l !! Z.to_nat j) as [y|] eqn:Hy; [|discriminate].
  apply lookup_lt_Some in Hy as Hlt. split; [|congruence].
  subst j. destruct (Z.ltb_spec i 0); lia.
Qed.

Lemma getitem_beyond l i : len l <= i -> getitem l i = Raise IndexError.
Proof.
  unfold getitem, len. intros Hi.
  destruct (Z.ltb_spec i 0) as [?|_]; [lia|].
  destruct (Z.ltb_spec i 0) as [?|_]; [lia|].
  rewrite lookup_ge_None_2; [done | lia].
Qed.

Lemma range_S (n : nat) : range (S n) = range n ++ [Z.of_nat n].
Proof. unfold range. by rewrite seq_S, fmap_app. Qed.

Lemma for_each_app {S} (body : A -> S -> result S) (xs ys : list A) (s : S) :
  for_each body (xs ++ ys) s = for_each body xs s ≫= for_each body ys.
Proof.
  revert s. induction xs as [|x xs IH]; intros s; simpl; [done|].
  destruct (body x s) as [s'|e]; simpl; [apply IH | done].
Qed.

End py_facts.

(** ** Python floats *)

Section float_facts.
Import F64.

(** Rounding keeps the sign and at most doubles the value. *)
Lemma round53_bound (m e : Z) :
  0 <= m ->
  exists d, 0 <= d /\ expo (round53 m e) = e + d /\
    0 <= mant (round53 m e) /\ mant (round53 m e) * 2 ^ d <= 2 * m.
Proof.
  intros Hm. unfold round53.
  destruct (Z.leb_spec (Z.log2 m + 1 - 53) 0) as [Hd|Hd]; simpl.
  { exists 0. simpl. lia. }
  set (d := Z.log2 m + 1 - 53) in *.
  exists d. split; [lia|]. split; [done|].
  assert (0 < m) as Hpos.
  { destruct (Z.eq_dec m 0) as [->|]; [|lia]. simpl in d. lia. }
  assert (0 < 2 ^ d) as Hpow by (apply Z.pow_pos_nonneg; lia).
  rewrite Z.shiftr_div_pow2 by lia.
  assert (2 ^ d <= m) as Hle.
  { transitivity (2 ^ Z.log2 m); [|apply Z.log2_spec; lia].
    apply Z.pow_le_mono_r; lia. }
  assert (1 <= m / 2 ^ d) as Hq.
  { apply Z.div_le_lower_bound; lia. }
  pose proof (Z.mul_div_le m (2 ^ d) Hpow) as Hdiv.
  set (q := m / 2 ^ d) in *.
  set (p := 2 ^ d) in *. clearbody q p.
  destruct (_ || _); simpl; split; nia.
Qed.

Lemma floor_tenth_bound (n : Z) :
  0 <= n ->
  0 <= floor (mul tenth (of_int n)) /\ 2 * floor (mul tenth (of_int n)) <= n.
Proof.
  intros Hn. unfold of_int, mul.
  destruct (round53_bound n 0 Hn) as (d1 & Hd1 & He1 & Hm1 & Hb1).
  remember (round53 n 0) as x eqn:Hx. clear Hx.
  change (mant tenth) with 7205759403792794.
  change (expo tenth) with (-56).
  destruct (round53_bound (7205759403792794 * mant x) (-56 + expo x))
    as (d2 & Hd2 & He2 & Hm2 & Hb2); [lia|].
  remember (round53 (7205759403792794 * mant x) (-56 + expo x)) as y eqn:Hy.
  clear Hy. rewrite He1 in He2.
  assert (0 < 2 ^ d1) by (apply Z.pow_pos_nonneg; lia).
  assert (0 < 2 ^ d2) by (apply Z.pow_pos_nonneg; lia).
  assert (mant y * 2 ^ (d1 + d2) <= 4 * 7205759403792794 * n) as Hb.
  { rewrite Z.pow_add_r by lia.
    pose proof (Z.mul_le_mono_nonneg_r _ _ (2 ^ d1) ltac:(lia) Hb2) as Hs1.
    pose proof (Z.mul_le_mono_nonneg_l _ _ (2 * 7205759403792794)
                  ltac:(lia) Hb1) as Hs2.
    lia. }
  assert (2 ^ 56 = 72057594037927936) as H56 by reflexivity.
  unfold floor. rewrite He2.
  destruct (Z.leb_spec 0 (-56 + (0 + d1) + d2)) as [He|He].
  - rewrite Z.shiftl_mul_pow2 by lia.
    assert (0 < 2 ^ (-56 + (0 + d1) + d2)) by (apply Z.pow_pos_nonneg; lia).
    assert (2 ^ (d1 + d2) = 2 ^ (-56 + (0 + d1) + d2) * 2 ^ 56) as Hsplit.
    { rewrite <- Z.pow_add_r by lia. f_equal. lia. }
    split; [nia|]. nia.
  - rewrite Z.shiftr_div_pow2 by lia.
    set (k := - (-56 + (0 + d1) + d2)) in *.
    assert (0 < 2 ^ k) as Hk by (apply Z.pow_pos_nonneg; lia).
    assert (2 ^ 56 = 2 ^ k * 2 ^ (d1 + d2)) as Hsplit.
    { rewrite <- Z.pow_add_r by lia. f_equal. lia. }
    pose proof (Z.mul_div_le (mant y) (2 ^ k) Hk) as Hdiv.
    assert (0 <= mant y / 2 ^ k) by (apply Z.div_pos; lia).
    assert (0 < 2 ^ (d1 + d2)) by (apply Z.pow_pos_nonneg; lia).
    split; [done|]. nia.
Qed.

(** Comparison is that of the values, at any common exponent. *)
Lemma leb_le (a b : float) (e : Z) :
  e <= expo a -> e <= expo b ->
  leb a b = true <->
  mant a * 2 ^ (expo a - e) <= mant b * 2 ^ (expo b - e).
Proof.
  intros Ha Hb. unfold leb, align. rewrite Z.leb_le.
  set (e' := Z.min (expo a) (expo b)).
  rewrite !Z.shiftl_mul_pow2 by lia.
  replace (expo a - e) with (expo a - e' + (e' - e)) by lia.
  replace (expo b - e) with (expo b - e' + (e' - e)) by lia.
  rewrite !Z.pow_add_r, !Z.mul_assoc by lia.
  apply Z.mul_le_mono_pos_r. apply Z.pow_pos_nonneg; lia.
Qed.

(** On the literals and on every size up to 3000, and at the size of the
    MedNIST dataset, the model is IEEE 754 binary64 arithmetic. *)
Lemma literals_ieee :
  ieee tenth = S754_finite false 7205759403792794 (-56) /\
  ieee fifth = S754_finite false 7205759403792794 (-55) /\
  same_value (add tenth tenth) (SFadd 53 1024 (ieee tenth) (ieee tenth)) = true /\
  same_value fifth (SFadd 53 1024 (ieee tenth) (ieee tenth)) = true.
Proof. repeat split; vm_compute; reflexivity. Qed.

Lemma tenth_of_size_ieee :
  agrees_from 0 3001 = true /\ agrees_with_ieee 58954 = true /\
  agrees_with_ieee 9007199254740993 = true.
Proof. repeat split; vm_compute; reflexivity. Qed.

Lemma ltb_not_leb (a b : float) : ltb a b = negb (leb b a).
Proof.
  unfold ltb, leb, align. rewrite (Z.min_comm (expo b) (expo a)).
  apply Z.ltb_antisym.
Qed.

End float_facts.

(** ** Items selected by group number *)

Section select_facts.
Import Partition.
Context {A : Type}.
Implicit Types (gs : list Z) (xs : list A).

Lemma select_nil g xs : select g [] xs = [].
Proof. done. Qed.

Lemma select_cons g g' gs (x : A) xs :
  select g (g' :: gs) (x :: xs) =
  if decide (g' = g) then x :: select g gs xs else select g gs xs.
Proof.
  unfold select. simpl. rewrite filter_cons. simpl.
  by destruct (decide (g' = g)).
Qed.

Lemma select_app g gs1 gs2 xs1 xs2 :
  length gs1 = length xs1 ->
  select g (gs1 ++ gs2) (xs1 ++ xs2) = select g gs1 xs1 ++ select g gs2 xs2.
Proof.
  intros Hlen. unfold select.
  rewrite zip_with_app by done. by rewrite filter_app, fmap_app.
Qed.

Lemma select_take_S g gs xs (k : nat) (gk : Z) (x : A) :
  length gs = length xs -> gs !! k = Some gk -> xs !! k = Some x ->
  select g (take (S k) gs) (take (S k) xs) =
  select g (take k gs) (take k xs) ++ (if decide (gk = g) then [x] else []).
Proof.
  intros Hlen Hg Hx.
  rewrite (take_S_r gs k gk), (take_S_r xs k x) by done.
  rewrite select_app by (rewrite !length_take; lia).
  f_equal. rewrite select_cons. by destruct (decide (gk = g)).
Qed.

Lemma length_select g gs xs :
  length gs = length xs -> len (select g gs xs) = count g gs.
Proof.
  unfold count, len. revert xs.
  induction gs as [|g' gs IH]; intros [|x xs] Hlen; try done.
  rewrite select_cons, filter_cons.
  specialize (IH xs ltac:(simpl in Hlen; lia)).
  destruct (decide (g' = g)); simpl; lia.
Qed.

Lemma select_partition gs xs :
  Forall (fun g => 0 <= g < 3) gs -> length gs = length xs ->
  select 0 gs xs ++ select 1 gs xs ++ select 2 gs xs ≡ₚ xs.
Proof.
  intros Hgs. revert xs.
  induction Hgs as [|g gs Hg _ IH]; intros [|x xs] Hlen; try done.
  specialize (IH xs ltac:(simpl in Hlen; lia)). rewrite !select_cons.
  assert (g = 0 \/ g = 1 \/ g = 2) as [->|[->| ->]] by lia; simpl.
  - by constructor.
  - rewrite <- Permutation_middle. by constructor.
  - rewrite app_assoc, <- Permutation_middle, <- app_assoc. by constructor.
Qed.

End select_facts.

Lemma select_zip {A B} g (gs : list Z) (xs : list A) (ys : list B) :
  Partition.select g gs (zip xs ys) =
  zip (Partition.select g gs xs) (Partition.select g gs ys).
Proof.
  revert xs ys. induction gs as [|g' gs IH]; intros xs ys; [done|].
  destruct xs as [|x xs]; [done|].
  destruct ys as [|y ys].
  { simpl. unfold Partition.select at 1. simpl.
    by destruct (Partition.select g (g' :: gs) (x :: xs)). }
  simpl. rewrite !select_cons, IH. by destruct (decide (g' = g)).
Qed.

Lemma count_perm g (gs gs' : list Z) :
  gs ≡ₚ gs' -> Partition.count g gs = Partition.count g gs'.
Proof. intros Hp. unfold Partition.count, len. by rewrite Hp. Qed.

Lemma count_replicate g (n : nat) (x : Z) :
  Partition.count g (replicate n x) = if decide (x = g) then Z.of_nat n else 0.
Proof.
  unfold Partition.count, len. induction n as [|n IH]; simpl.
  { by destruct (decide (x = g)). }
  rewrite filter_cons. destruct (decide (x = g)); simpl; lia.
Qed.

Lemma count_app g (gs gs' : list Z) :
  Partition.count g (gs ++ gs') = Partition.count g gs + Partition.count g gs'.
Proof. unfold Partition.count, len. rewrite filter_app, length_app. lia. Qed.

(** ** Cell 36: the array of group numbers *)

Section groups_facts.
Import Partition.

Lemma slice_bound_inside (n : nat) (i : Z) :
  0 <= i <= Z.of_nat n -> slice_bound n i = Z.to_nat i.
Proof.
  intros Hi. unfold slice_bound.
  destruct (Z.ltb_spec i 0); [lia|]. f_equal. lia.
Qed.

Lemma test_count_eq (n : nat) : test_count n = validation_count n.
Proof. reflexivity. Qed.

Lemma validation_count_bound (n : nat) :
  0 <= validation_count n /\ 2 * validation_count n <= Z.of_nat n.
Proof. apply floor_tenth_bound. lia. Qed.

(** Before the shuffle the array is a block of 1s, a block of 2s, then 0s. *)
Lemma initial_groups_blocks (n : nat) :
  let c := Z.to_nat (validation_count n) in
  initial_groups n =
  replicate c 1 ++ replicate c 2 ++ replicate (n - 2 * c) 0.
Proof.
  intros c. pose proof (validation_count_bound n) as [Hc0 Hc2].
  unfold initial_groups. change (test_count n) with (validation_count n).
  set (a := slice_fill 0 _ 1 _).
  assert (a = replicate c 1 ++ replicate (n - c) 0) as ->.
  { subst a. unfold slice_fill. rewrite length_replicate.
    rewrite !slice_bound_inside by lia. change (Z.to_nat 0) with 0%nat.
    fold c. simpl. rewrite Nat.sub_0_r. by rewrite drop_replicate. }
  unfold slice_fill.
  rewrite length_app, !length_replicate.
  replace (c + (n - c))%nat with n by lia.
  rewrite !slice_bound_inside by lia. fold c.
  replace (Z.to_nat (validation_count n + validation_count n))
    with (c + c)%nat by lia.
  rewrite take_app_length' by (by rewrite length_replicate).
  replace (c + c - c)%nat with c by lia.
  rewrite drop_app_ge by (rewrite length_replicate; lia).
  rewrite length_replicate, drop_replicate.
  do 3 f_equal. lia.
Qed.

Lemma initial_groups_length (n : nat) : length (initial_groups n) = n.
Proof.
  pose proof (validation_count_bound n).
  rewrite initial_groups_blocks, !length_app, !length_replicate. lia.
Qed.

Lemma initial_groups_range (n : nat) :
  Forall (fun g => 0 <= g < 3) (initial_groups n).
Proof.
  rewrite initial_groups_blocks.
  repeat (apply Forall_app; split); apply Forall_replicate; lia.
Qed.

Lemma initial_groups_count (n : nat) :
  count 1 (initial_groups n) = validation_count n /\
  count 2 (initial_groups n) = validation_count n /\
  count 0 (initial_groups n) = Z.of_nat n - 2 * validation_count n.
Proof.
  pose proof (validation_count_bound n).
  rewrite initial_groups_blocks, !count_app, !count_replicate. simpl.
  repeat split; lia.
Qed.

(** The sets after the first [k] rounds of the assignment loop. *)
Lemma assign_rounds (groups : list Z) (files : list string) (classes : list Z)
    (k : nat) :
  Forall (fun g => 0 <= g < 3) groups ->
  length files = length groups -> length classes = length groups ->
  (k <= length groups)%nat ->
  for_each (assign_body groups files classes) (range k)
    ([[]; []; []], [[]; []; []]) =
  Ok ([select 0 (take k groups) (take k files);
       select 1 (take k groups) (take k files);
       select 2 (take k groups) (take k files)],
      [select 0 (take k groups) (take k classes);
       select 1 (take k groups) (take k classes);
       select 2 (take k groups) (take k classes)]).
Proof.
  intros Hgs Hfiles Hclasses. induction k as [|k IH]; intros Hk; [done|].
  rewrite range_S, for_each_app, IH by lia. clear IH.
  destruct (lookup_lt_is_Some_2 groups k) as [g Hg]; [lia|].
  destruct (lookup_lt_is_Some_2 files k) as [x Hx]; [lia|].
  destruct (lookup_lt_is_Some_2 classes k) as [y Hy]; [lia|].
  rewrite !(select_take_S _ groups _ k g) with (x := x) by done.
  rewrite !(select_take_S _ groups _ k g) with (x := y) by done.
  cbn [mbind result_bind for_each]. unfold assign_body.
  rewrite (getitem_nat groups k g Hg). cbn [mbind result_bind].
  unfold append_to.
  rewrite (getitem_nat files k x Hx), (getitem_nat classes k y Hy).
  pose proof (Forall_lookup_1 _ _ _ _ Hgs Hg) as Hrange. simpl in Hrange.
  assert (g = 0 \/ g = 1 \/ g = 2) as [->|[->| ->]] by lia;
    cbn; by rewrite ?app_nil_r.
Qed.

End groups_facts.

(** ** Cell 36: the partitioning by shuffled group numbers *)

Section split_by_groups_facts.
Import Partition.
Context `{NumpyRandom}.

(** C1.  For any [num_total] and input lists of that length, the revised
    split builds an array holding [floor(0.1 * num_total)] ones, as many
    twos and zeros elsewhere, shuffles it, and sends item [n] to the set
    numbered [groups[n]].  The cell returns; each of its six lists is the
    selection of its group, in order; the three (image, label) sets are the
    selections of the zipped input, so every pair is an original one, and
    together they are a permutation of the input; the validation and test
    sets have [floor(0.1 * num_total)] elements each and the training set
    has the rest. *)
Theorem split_by_groups_partition (seed : Z) (num_total : nat)
    (image_files_list : list string) (image_class : list Z)
    (g : RandomState) :
  length image_files_list = num_total ->
  length image_class = num_total ->
  let c := validation_count num_total in
  let groups := (shuffle (new_state seed) (initial_groups num_total)).1 in
  let items := zip image_files_list image_class in
  (test_count num_total = c /\
   length (initial_groups num_total) = num_total /\
   count 1 (initial_groups num_total) = c /\
   count 2 (initial_groups num_total) = c /\
   count 0 (initial_groups num_total) = Z.of_nat num_total - 2 * c /\
   groups ≡ₚ initial_groups num_total /\
   length groups = num_total /\
   Forall (fun g => g = 0 \/ g = 1 \/ g = 2) groups) /\
  exists l,
    (split_by_groups seed num_total image_files_list image_class g).1 = Ok l /\
    (train_x l = select 0 groups image_files_list /\
     train_y l = select 0 groups image_class /\
     val_x l = select 1 groups image_files_list /\
     val_y l = select 1 groups image_class /\
     test_x l = select 2 groups image_files_list /\
     test_y l = select 2 groups image_class) /\
    (zip (train_x l) (train_y l) = select 0 groups items /\
     zip (val_x l) (val_y l) = select 1 groups items /\
     zip (test_x l) (test_y l) = select 2 groups items) /\
    zip (train_x l) (train_y l) ++ zip (val_x l) (val_y l) ++
      zip (test_x l) (test_y l) ≡ₚ items /\
    (len (val_x l) = c /\ len (val_y l) = c /\
     len (test_x l) = c /\ len (test_y l) = c /\
     len (train_x l) = Z.of_nat num_total - 2 * c /\
     len (train_y l) = Z.of_nat num_total - 2 * c).
Proof.
  intros Hfiles Hclasses c groups items.
  pose proof (initial_groups_count num_total) as (Hc1 & Hc2 & Hc0).
  pose proof (initial_groups_length num_total) as Hlen0.
  assert (groups ≡ₚ initial_groups num_total) as Hperm by apply shuffle_perm.
  assert (length groups = num_total) as Hlen by (by rewrite Hperm).
  assert (Forall (fun g => 0 <= g < 3) groups) as Hrange.
  { rewrite Hperm. apply initial_groups_range. }
  split.
  { repeat (split; [done|]). eapply Forall_impl; [exact Hrange|].
    simpl. intros. lia. }
  pose proof (assign_rounds groups image_files_list image_class num_total
                Hrange ltac:(lia) ltac:(lia) ltac:(lia)) as Hloop.
  rewrite !take_ge in Hloop by lia.
  assert ((split_by_groups seed num_total image_files_list image_class g).1 =
          (st ← for_each (assign_body groups image_files_list image_class)
                  (range num_total) ([[]; []; []], [[]; []; []]);
           '(train_x, val_x, test_x) ← unpack3 st.1;
           '(train_y, val_y, test_y) ← unpack3 st.2;
           Ok (mk train_x train_y val_x val_y test_x test_y))) as ->.
  { unfold split_by_groups. subst groups.
    destruct (shuffle (new_state seed) (initial_groups num_total)). cbn [fst].
    by destruct (for_each _ _ _) as [[??]|]. }
  rewrite Hloop. cbn.
  eexists. split; [reflexivity|]. cbn. subst items.
  split; [by repeat split|].
  split; [by rewrite !select_zip|].
  split.
  { rewrite <- !select_zip. apply select_partition; [done|].
    rewrite length_zip_with. lia. }
  rewrite !length_select by lia.
  rewrite !(count_perm _ groups _ Hperm). by repeat split.
Qed.

(** C2.  The revised partitioning is a function of the seed and the input
    lists alone: whatever state the global generator is in, the six lists
    come out the same, and the global generator is left as it was.  So a
    second execution, right after the first or after cell 14 has drawn
    from the global generator, produces the same lists. *)
Theorem split_by_groups_deterministic (seed : Z) (num_total : nat)
    (image_files_list : list string) (image_class : list Z)
    (g1 g2 : RandomState) :
  let run := split_by_groups seed num_total image_files_list image_class in
  (run g1).1 = (run g2).1 /\
  (run g1).2 = g1 /\
  (run (run g1).2).1 = (run g1).1 /\
  (forall g l, split_by_draw num_total image_files_list image_class g1 =
                 Ok (l, g) ->
     (run g).1 = (run g1).1).
Proof.
  intros run. subst run. unfold split_by_groups.
  by destruct (shuffle (new_state seed) (initial_groups num_total)).
Qed.

End split_by_groups_facts.

Lemma split_by_groups_partition_witness :
  length Demo.files = 10%nat /\ length Demo.classes = 10%nat /\
  exists l,
    (Partition.split_by_groups (H := Demo.numpy) Partition.dataset_seed 10
       Demo.files Demo.classes 0).1 = Ok l /\
    len (Partition.val_x l) = 1 /\ len (Partition.test_x l) = 1 /\
    len (Partition.train_x l) = 8.
Proof.
  split; [reflexivity|]. split; [reflexivity|].
  destruct (split_by_groups_partition (H := Demo.numpy)
              Partition.dataset_seed 10 Demo.files Demo.classes 0
              eq_refl eq_refl)
    as (_ & l & Hl & _ & _ & _ & Hv & _ & Ht & _ & Htr & _).
  exists l. split; [exact Hl|]. split; [exact Hv|]. split; [exact Ht|].
  exact Htr.
Defined.

(** ** Cell 14: the partitioning by one draw per item *)

Section split_by_draw_facts.
Import Partition.
Context `{NumpyRandom}.

(** [test_frac + val_frac] is the float [0.2]: doubling is exact. *)
Lemma test_plus_val_frac : F64.add test_frac val_frac = F64.fifth.
Proof. reflexivity. Qed.

Lemma bucket_cases (rann : F64.float) :
  (bucket rann = 1 <-> F64.ltb rann F64.tenth = true) /\
  (bucket rann = 2 <->
     F64.leb F64.tenth rann = true /\ F64.ltb rann F64.fifth = true) /\
  (bucket rann = 0 <-> F64.leb F64.fifth rann = true).
Proof.
  unfold bucket. rewrite test_plus_val_frac. unfold val_frac.
  rewrite (ltb_not_leb rann F64.tenth), (ltb_not_leb rann F64.fifth).
  assert (F64.leb F64.fifth rann = true -> F64.leb F64.tenth rann = true)
    as Hmono.
  { set (e := Z.min (-56) (F64.expo rann)).
    rewrite (leb_le F64.fifth rann e), (leb_le F64.tenth rann e)
      by (simpl; lia).
    cbn [F64.mant F64.expo F64.tenth F64.fifth].
    replace (-55 - e) with (-56 - e + 1) by lia.
    rewrite Z.pow_add_r by lia.
    assert (0 < 2 ^ (-56 - e)) by (apply Z.pow_pos_nonneg; lia).
    lia. }
  destruct (F64.leb F64.tenth rann) eqn:H1, (F64.leb F64.fifth rann) eqn:H2;
    simpl; try (specialize (Hmono eq_refl); discriminate);
    repeat split; intros; try done; try lia; naive_solver.
Qed.

Lemma advance_S (k : nat) (g : RandomState) :
  random (advance k g) = (draw g k, advance (S k) g).
Proof. unfold draw. simpl. by destruct (random (advance k g)). Qed.

(** The lists and the generator after the first [k] rounds of the loop. *)
Lemma draw_rounds (files : list string) (classes : list Z) (g : RandomState)
    (k : nat) :
  length classes = length files -> (k <= length files)%nat ->
  let groups := (fun i => bucket (draw g i)) <$> seq 0 k in
  for_each (draw_body files classes) (range k) (empty, g) =
  Ok (mk (select 0 groups (take k files)) (select 0 groups (take k classes))
         (select 1 groups (take k files)) (select 1 groups (take k classes))
         (select 2 groups (take k files)) (select 2 groups (take k classes)),
      advance k g).
Proof.
  intros Hlen. induction k as [|k IH]; intros Hk groups; [done|].
  rewrite range_S, for_each_app, IH by lia. clear IH.
  destruct (lookup_lt_is_Some_2 files k) as [x Hx]; [lia|].
  destruct (lookup_lt_is_Some_2 classes k) as [y Hy]; [lia|].
  subst groups. rewrite seq_S, fmap_app.
  rewrite (take_S_r files k x), (take_S_r classes k y) by done.
  rewrite !select_app by (rewrite length_fmap, length_seq, length_take; lia).
  cbn [mbind result_bind for_each]. unfold draw_body.
  rewrite advance_S. cbn [fmap list_fmap Nat.add].
  rewrite !select_cons, !select_nil. unfold bucket.
  destruct (F64.ltb (draw g k) val_frac);
    [|destruct (F64.ltb (draw g k) (F64.add test_frac val_frac))];
    rewrite (getitem_nat files k x Hx), (getitem_nat classes k y Hy);
    cbn; by rewrite ?app_nil_r.
Qed.

(** C3.  The original split draws once per index: the [k]-th draw, a
    sample of [0, 1), decides item [k], which goes to the validation set
    when the draw is below 0.1, to the test set when it is at least 0.1 and
    below 0.2, and to the training set otherwise.  The cell returns, having
    advanced the global generator by [num_total] draws; the three
    (image, label) sets are the selections of the zipped input by those
    group numbers, so each pair is an original one, and together they are a
    permutation of the input. *)
Theorem split_by_draw_partition (num_total : nat)
    (image_files_list : list string) (image_class : list Z)
    (g : RandomState) :
  length image_files_list = num_total ->
  length image_class = num_total ->
  let groups := (fun k => bucket (draw g k)) <$> seq 0 num_total in
  let items := zip image_files_list image_class in
  (forall rann,
     (bucket rann = 1 <-> F64.ltb rann F64.tenth = true) /\
     (bucket rann = 2 <->
        F64.leb F64.tenth rann = true /\ F64.ltb rann F64.fifth = true) /\
     (bucket rann = 0 <-> F64.leb F64.fifth rann = true)) /\
  (forall k, 0 <= F64.mant (draw g k) /\
             F64.ltb (draw g k) (F64.mk 1 0) = true) /\
  exists l,
    split_by_draw num_total image_files_list image_class g =
      Ok (l, advance num_total g) /\
    (train_x l = select 0 groups image_files_list /\
     train_y l = select 0 groups image_class /\
     val_x l = select 1 groups image_files_list /\
     val_y l = select 1 groups image_class /\
     test_x l = select 2 groups image_files_list /\
     test_y l = select 2 groups image_class) /\
    (zip (train_x l) (train_y l) = select 0 groups items /\
     zip (val_x l) (val_y l) = select 1 groups items /\
     zip (test_x l) (test_y l) = select 2 groups items) /\
    zip (train_x l) (train_y l) ++ zip (val_x l) (val_y l) ++
      zip (test_x l) (test_y l) ≡ₚ items.
Proof.
  intros Hfiles Hclasses groups items.
  split; [apply bucket_cases|].
  split; [intros k; apply random_unit|].
  pose proof (draw_rounds image_files_list image_class g num_total
                ltac:(lia) ltac:(lia)) as Hloop.
  cbn zeta in Hloop. fold groups in Hloop. rewrite !take_ge in Hloop by lia.
  unfold split_by_draw. rewrite Hloop.
  eexists. split; [reflexivity|]. cbn. subst items.
  split; [by repeat split|].
  split; [by rewrite !select_zip|].
  rewrite <- !select_zip. apply select_partition.
  - subst groups. apply Forall_fmap, Forall_forall. intros k _. simpl.
    unfold bucket. repeat case_match; lia.
  - subst groups. rewrite length_fmap, length_seq, length_zip_with. lia.
Qed.

End split_by_draw_facts.

Lemma split_by_draw_partition_witness :
  length Demo.files = 10%nat /\ length Demo.classes = 10%nat /\
  exists l,
    Partition.split_by_draw (H := Demo.numpy) 10 Demo.files
      Demo.classes 7 = Ok (l, Partition.advance (H := Demo.numpy) 10 7) /\
    zip (Partition.train_x l) (Partition.train_y l) ++
      zip (Partition.val_x l) (Partition.val_y l) ++
      zip (Partition.test_x l) (Partition.test_y l) ≡ₚ
    zip Demo.files Demo.classes.
Proof.
  split; [reflexivity|]. split; [reflexivity|].
  destruct (split_by_draw_partition (H := Demo.numpy) 10 Demo.files
              Demo.classes 7 eq_refl eq_refl)
    as (_ & _ & l & Hl & _ & _ & Hperm).
  exists l. split; [exact Hl | exact Hperm].
Defined.

(** ** Cell 18: [MedNISTDataset] *)

Section dataset_facts.
Context {T : Type}.

(** C10.  [MedNISTDataset] checks nothing: any two lists make a dataset,
    [__len__] is the number of image files whatever the labels are,
    [__getitem__] returns the transformed file with its label exactly when
    both subscripts and the transform succeed, so only for an index valid
    in both lists, and it raises for every index from [len(labels)] on,
    also below [__len__]. *)
Theorem dataset_unchecked (image_files : list string) (labels : list Z)
    (transforms : string -> result T) (index : Z) :
  let self := Dataset.__init__ image_files labels transforms in
  Dataset.__len__ self = len image_files /\
  (forall image label,
     Dataset.__getitem__ self index = Ok (image, label) <->
     exists file, getitem image_files index = Ok file /\
                  transforms file = Ok image /\
                  getitem labels index = Ok label) /\
  (forall item,
     Dataset.__getitem__ self index = Ok item ->
     - len image_files <= index < len image_files /\
     - len labels <= index < len labels) /\
  (len labels <= index -> exists e, Dataset.__getitem__ self index = Raise e) /\
  (len labels <= index < len image_files ->
   Dataset.__len__ self > index /\
   forall file image,
     getitem image_files index = Ok file -> transforms file = Ok image ->
     Dataset.__getitem__ self index = Raise IndexError).
Proof.
  intros self. unfold Dataset.__getitem__, Dataset.__len__. simpl.
  split; [done|]. split; [|split; [|split]].
  - intros image label. split.
    + intros Hget.
      apply bind_ok in Hget as (file & Hfile & Hget).
      apply bind_ok in Hget as (image' & Himage & Hget).
      apply bind_ok in Hget as (label' & Hlabel & Hget).
      injection Hget as <- <-. eauto.
    + intros (file & -> & Himage & Hlabel). simpl.
      rewrite Himage. simpl. by rewrite Hlabel.
  - intros [image label] Hget.
    apply bind_ok in Hget as (file & Hfile & Hget).
    apply bind_ok in Hget as (image' & Himage & Hget).
    apply bind_ok in Hget as (label' & Hlabel & Hget).
    apply getitem_ok in Hfile as [? _]. apply getitem_ok in Hlabel as [? _].
    done.
  - intros Hge.
    destruct (getitem image_files index) as [file|e]; simpl; [|eauto].
    destruct (transforms file) as [image|e]; simpl; [|eauto].
    rewrite getitem_beyond by done. simpl. eauto.
  - intros [Hge Hlt]. split; [lia|]. intros file image -> Himage. simpl.
    rewrite Himage. simpl. by rewrite getitem_beyond.
Qed.

End dataset_facts.

(** ** Binary64 division by a count

    What the Standard Library's division does to a normal number divided
    by a count: the quotient has 53 or 54 bits, is shifted by at most one
    bit, rounded, and is then within 2^-53 of the exact quotient. *)

Section binary64_facts.
Import Binary64.

Lemma digits2_size (p : positive) : digits2_pos p = Pos.size p.
Proof. induction p as [p IH|p IH|]; simpl; by rewrite ?IH. Qed.

Lemma digits2_log2 (p : positive) :
  Z.pos (digits2_pos p) = Z.log2 (Z.pos p) + 1.
Proof.
  rewrite digits2_size. destruct p as [p|p|]; simpl; try done.
  all: rewrite ?Pos2Z.inj_succ; lia.
Qed.

Lemma digits2_bounds (p : positive) (d : Z) :
  Z.pos (digits2_pos p) = d <-> 2 ^ (d - 1) <= Z.pos p < 2 ^ d.
Proof.
  rewrite digits2_log2. split.
  - intros <-.
    replace (Z.log2 (Z.pos p) + 1 - 1) with (Z.log2 (Z.pos p)) by lia.
    replace (Z.log2 (Z.pos p) + 1) with (Z.succ (Z.log2 (Z.pos p))) by lia.
    apply Z.log2_spec. lia.
  - intros Hd.
    assert (0 <= d - 1) as Hpos.
    { destruct (Z.le_gt_cases 0 (d - 1)) as [?|Hneg]; [done|].
      destruct Hd as [_ Hd].
      destruct (Z.eq_dec d 0) as [->|?]; [change (2 ^ 0) with 1 in Hd; lia|].
      rewrite Z.pow_neg_r in Hd by lia. lia. }
    rewrite (Z.log2_unique (Z.pos p) (d - 1)); [lia|done|].
    replace (Z.succ (d - 1)) with d by lia. exact Hd.
Qed.

Lemma new_location_located (d r : Z) :
  0 <= r < d -> located (new_location d r) r d.
Proof.
  intros Hr. unfold new_location, new_location_even, new_location_odd.
  destruct (Z.even d) eqn:Hd.
  - destruct (Z.eqb_spec r 0) as [->|Hne]; [done|].
    destruct (Z.compare_spec (2 * r) d); simpl; lia.
  - assert (Z.odd d = true) as Hodd by (by rewrite <- Z.negb_even, Hd).
    apply Z.odd_spec in Hodd as [k ->].
    destruct (Z.eqb_spec r 0) as [->|Hne]; [done|].
    destruct (Z.compare_spec (2 * r + 1) (2 * k + 1)); simpl; lia.
Qed.

Lemma shr_record_of_loc_m (m : Z) (l : location) :
  shr_m (shr_record_of_loc m l) = m /\
  loc_of_shr_record (shr_record_of_loc m l) = l.
Proof. by destruct l as [|[]]. Qed.

(** The first shift of a quotient of 53 or 54 bits: none, or one bit. *)
Lemma shr_fexp_quotient (q e d r : Z) :
  2 ^ 52 <= q < 2 ^ 54 -> -1074 <= e -> 0 <= r < d ->
  exists (mrs : shr_record) (c : Z),
    shr_fexp 53 1024 q e (new_location d r) = (mrs, e + c) /\
    0 <= c <= 1 /\ 2 ^ (52 + c) <= q /\
    2 ^ 52 <= shr_m mrs < 2 ^ 53 /\
    located (loc_of_shr_record mrs)
      (q * d + r - shr_m mrs * (2 ^ c * d)) (2 ^ c * d).
Proof.
  intros Hq He Hr.
  pose proof (new_location_located d r Hr) as Hloc.
  destruct q as [|q|q]; [lia| |lia].
  unfold shr_fexp, fexp, emin. cbn [Zdigits2].
  destruct (Z.lt_ge_cases (Z.pos q) (2 ^ 53)) as [Hlt|Hge].
  - rewrite (proj2 (digits2_bounds q 53)) by (simpl; lia).
    replace (Z.max (53 + e - 53) (3 - 1024 - 53) - e) with 0 by lia.
    exists (shr_record_of_loc (Z.pos q) (new_location d r)), 0.
    destruct (shr_record_of_loc_m (Z.pos q) (new_location d r)) as [-> ->].
    cbn [shr]. rewrite Z.add_0_r. repeat split; try lia.
    change (2 ^ 0) with 1. rewrite Z.mul_1_l.
    by replace (Z.pos q * d + r - Z.pos q * d) with r by lia.
  - rewrite (proj2 (digits2_bounds q 54)) by (simpl; lia).
    replace (Z.max (54 + e - 53) (3 - 1024 - 53) - e) with 1 by lia.
    exists (shr_1 (shr_record_of_loc (Z.pos q) (new_location d r))), 1.
    cbn [shr iter_pos]. split; [done|]. split; [lia|]. split; [simpl; lia|].
    change (2 ^ 1) with 2.
    destruct q as [p|p|]; [| |simpl in Hge; lia].
    + assert (2 ^ 52 <= Z.pos p < 2 ^ 53) as Hp by (simpl in *; lia).
      destruct (new_location d r) as [|[]]; cbn in *; split; try done; lia.
    + assert (2 ^ 52 <= Z.pos p < 2 ^ 53) as Hp by (simpl in *; lia).
      destruct (new_location d r) as [|[]]; cbn in *; split; try done; lia.
Qed.

(** Rounding to nearest moves by at most half a unit. *)
Lemma round_nearest_even_near (m x u : Z) (l : location) :
  0 < u -> located l x u ->
  m <= round_nearest_even m l <= m + 1 /\
  2 * Z.abs (round_nearest_even m l * u - (m * u + x)) <= u.
Proof.
  intros Hu Hloc.
  assert (m * u - (m * u + x) = - x) as Hsame by ring.
  assert ((m + 1) * u - (m * u + x) = u - x) as Hnext by ring.
  destruct l as [|[]]; unfold located in Hloc; unfold round_nearest_even;
    [|destruct (Z.even m)|..]; rewrite ?Hsame, ?Hnext; lia.
Qed.

(** The second shift: the rounded mantissa has 53 bits, or is 2^53. *)
Lemma shr_fexp_rounded (m e : Z) :
  2 ^ 52 <= m <= 2 ^ 53 -> -1074 <= e ->
  exists (p : positive) (c : Z),
    shr_fexp 53 1024 m e loc_Exact =
      (Build_shr_record (Z.pos p) false false, e + c) /\
    0 <= c <= 1 /\ Z.pos p * 2 ^ c = m /\ 2 ^ 52 <= Z.pos p < 2 ^ 53.
Proof.
  intros Hm He. destruct m as [|m|m]; [lia| |lia].
  unfold shr_fexp, fexp, emin. cbn [Zdigits2 shr_record_of_loc].
  destruct (Z.eq_dec (Z.pos m) (2 ^ 53)) as [Heq|Hne].
  - assert (m = 9007199254740992%positive) as -> by lia.
    exists 4503599627370496%positive, 1.
    change (Z.pos (digits2_pos 9007199254740992)) with 54.
    replace (Z.max (54 + e - 53) (3 - 1024 - 53) - e) with 1 by lia.
    repeat split; first [reflexivity | lia].
  - rewrite (proj2 (digits2_bounds m 53)) by (simpl; lia).
    replace (Z.max (53 + e - 53) (3 - 1024 - 53) - e) with 0 by lia.
    exists m, 0. cbn [shr]. rewrite Z.add_0_r. repeat split; lia.
Qed.

(** A quotient [q + r / d] of 53 or 54 bits is rounded to a 53-bit mantissa
    within 2^-53 of it. *)
Lemma round_aux_near (q e d r : Z) :
  2 ^ 52 <= q < 2 ^ 54 -> -1074 <= e -> 0 <= r < d ->
  exists (m : positive) (c : Z),
    2 ^ 52 <= Z.pos m < 2 ^ 53 /\ 0 <= c <= 2 /\
    2 ^ 53 * Z.abs (Z.pos m * 2 ^ c * d - (q * d + r)) <= q * d + r /\
    binary_round_aux 53 1024 false q e (new_location d r) =
      if e + c <=? 971 then S754_finite false m (e + c)
      else S754_infinity false.
Proof.
  intros Hq He Hr. unfold binary_round_aux.
  destruct (shr_fexp_quotient q e d r Hq He Hr)
    as (mrs & c1 & -> & Hc1 & Hq1 & Hm & Hloc).
  assert (0 < 2 ^ c1 * d) as Hu.
  { apply Z.mul_pos_pos; [apply Z.pow_pos_nonneg|]; lia. }
  pose proof (round_nearest_even_near (shr_m mrs) _ _ _ Hu Hloc) as [Hr1 Hr2].
  set (m1 := round_nearest_even (shr_m mrs) (loc_of_shr_record mrs)) in *.
  destruct (shr_fexp_rounded m1 (e + c1)) as (p & c2 & -> & Hc2 & Hp & Hp2);
    [lia|lia|].
  cbn [shr_m]. exists p, (c1 + c2).
  split; [done|]. split; [lia|]. split.
  - rewrite Z.pow_add_r by lia.
    replace (Z.pos p * (2 ^ c1 * 2 ^ c2) * d) with (m1 * (2 ^ c1 * d)) by
      (rewrite <- Hp; ring).
    replace (shr_m mrs * (2 ^ c1 * d) +
             (q * d + r - shr_m mrs * (2 ^ c1 * d))) with (q * d + r)
      in Hr2 by ring.
    assert (2 ^ 52 * (2 ^ c1 * d) <= q * d) as Hunit.
    { rewrite Z.mul_assoc, <- Z.pow_add_r by lia. nia. }
    lia.
  - by rewrite Z.add_assoc.
Qed.

(** A 53-bit mantissa in range is a binary64 value as it stands. *)
Lemma round_aux_exact (s : bool) (m : positive) (e : Z) :
  2 ^ 52 <= Z.pos m < 2 ^ 53 -> -1074 <= e <= 971 ->
  binary_round_aux 53 1024 s (Z.pos m) e loc_Exact = S754_finite s m e.
Proof.
  intros Hm He. unfold binary_round_aux, shr_fexp, fexp, emin.
  cbn [Zdigits2 shr_record_of_loc].
  rewrite (proj2 (digits2_bounds m 53)) by (simpl; lia).
  replace (Z.max (53 + e - 53) (3 - 1024 - 53) - e) with 0 by lia.
  cbn [shr shr_m loc_of_shr_record round_nearest_even Zdigits2
       shr_record_of_loc].
  rewrite (proj2 (digits2_bounds m 53)) by (simpl; lia).
  replace (Z.max (53 + e - 53) (3 - 1024 - 53) - e) with 0 by lia.
  cbn [shr shr_m].
  by destruct (Z.leb_spec e (1024 - 53)); [|lia].
Qed.

Lemma iter_xO (p d : positive) :
  Z.pos (Pos.iter xO p d) = Z.pos p * 2 ^ Z.pos d.
Proof.
  induction d as [|d IH] using Pos.peano_ind; [simpl; lia|].
  rewrite Pos.iter_succ, Pos2Z.inj_succ, Z.pow_succ_r by lia.
  rewrite Pos2Z.inj_xO, IH. ring.
Qed.

(** [float(n)] is exact below 2^53: the mantissa is [n] shifted to 53
    bits. *)
Lemma of_int_normal (n : Z) :
  1 <= n < 2 ^ 53 ->
  let k := 52 - Z.log2 n in
  0 <= k <= 52 /\ 2 ^ 52 <= n * 2 ^ k < 2 ^ 53 /\
  of_int n = S754_finite false (Z.to_pos (n * 2 ^ k)) (- k).
Proof.
  intros Hn k.
  assert (0 <= Z.log2 n < 53) as Hlog.
  { split; [apply Z.log2_nonneg|]. apply Z.log2_lt_pow2; lia. }
  assert (2 ^ Z.log2 n <= n < 2 ^ Z.succ (Z.log2 n)) as Hspec
    by (apply Z.log2_spec; lia).
  assert (2 ^ 52 <= n * 2 ^ k < 2 ^ 53) as Hm.
  { replace (2 ^ 52) with (2 ^ Z.log2 n * 2 ^ k)
      by (rewrite <- Z.pow_add_r by lia; f_equal; lia).
    replace (2 ^ 53) with (2 ^ Z.succ (Z.log2 n) * 2 ^ k)
      by (rewrite <- Z.pow_add_r by lia; f_equal; lia).
    assert (0 < 2 ^ k) by (apply Z.pow_pos_nonneg; lia). nia. }
  assert (0 <= k <= 52) as Hk by lia.
  split; [done|]. split; [done|].
  destruct n as [|p|p]; [lia| |lia].
  unfold of_int, binary_normalize, binary_round, shl_align, fexp, emin.
  rewrite digits2_log2.
  replace (Z.max (Z.log2 (Z.pos p) + 1 + 0 - 53) (3 - 1024 - 53) - 0)
    with (- k) by lia.
  replace (Z.max (Z.log2 (Z.pos p) + 1 + 0 - 53) (3 - 1024 - 53))
    with (- k) by lia.
  clearbody k. destruct k as [|d|d]; [| |lia];
    [change (- 0) with 0 | change (- Z.pos d) with (Z.neg d)]; cbv iota beta.
  - change (2 ^ 0) with 1 in *. rewrite Z.mul_1_r in *.
    by rewrite round_aux_exact by lia.
  - rewrite <- iter_xO in *. by rewrite round_aux_exact by lia.
Qed.

(** Dividing a positive normal number by a positive [int] below 2^53:
    the quotient is a normal number within 2^-53 of the exact one. *)
Lemma truediv_of_int (m : positive) (e n : Z) :
  2 ^ 52 <= Z.pos m < 2 ^ 53 -> -1021 <= e <= 971 -> 1 <= n < 2 ^ 53 ->
  exists (m' : positive) (x : Z),
    truediv (S754_finite false m e) (of_int n) =
      S754_finite false m' (e - 53 + x) /\
    2 ^ 52 <= Z.pos m' < 2 ^ 53 /\ 0 <= x /\
    2 ^ 53 * Z.abs (Z.pos m' * 2 ^ x * n - Z.pos m * 2 ^ 53)
      <= Z.pos m * 2 ^ 53.
Proof.
  intros Hm He Hn.
  destruct (of_int_normal n Hn) as (Hk & Hm2 & ->).
  set (k := 52 - Z.log2 n) in *. clearbody k.
  set (m2 := n * 2 ^ k) in *.
  assert (Z.pos (Z.to_pos m2) = m2) as Hpos by (apply Z2Pos.id; lia).
  unfold truediv, SFdiv, SFdiv_core_binary, fexp, emin. cbn [Zdigits2 xorb].
  rewrite (proj2 (digits2_bounds m 53)) by (simpl; lia).
  rewrite (proj2 (digits2_bounds (Z.to_pos m2) 53))
    by (rewrite Hpos; simpl; lia).
  replace (Z.min (Z.max (53 + e - (53 + - k) - 53) (3 - 1024 - 53)) (e - - k))
    with (e + k - 53) by lia.
  replace (e - - k - (e + k - 53)) with 53 by lia.
  rewrite Hpos, Z.shiftl_mul_pow2 by lia.
  pose proof (Z_div_mod (Z.pos m * 2 ^ 53) m2 ltac:(lia)) as Hdiv.
  destruct (Z.div_eucl (Z.pos m * 2 ^ 53) m2) as [q r].
  destruct Hdiv as [Hqr Hr].
  assert (2 ^ 52 <= q < 2 ^ 54) as Hq.
  { change (2 ^ 54) with (2 * 2 ^ 53). change (2 ^ 53) with (2 * 2 ^ 52) in *.
    nia. }
  destruct (round_aux_near q (e + k - 53) m2 r Hq ltac:(lia) Hr)
    as (m' & c & Hm' & Hc & Hnear & ->).
  assert (q * m2 + r = Z.pos m * 2 ^ 53) as Hnum by lia.
  rewrite Hnum in Hnear.
  assert (Z.pos m' * 2 ^ c * m2 = Z.pos m' * 2 ^ (k + c) * n) as Hscale.
  { unfold m2. rewrite Z.pow_add_r by lia. ring. }
  rewrite Hscale in Hnear.
  assert (k + c <= 53) as Hx.
  { assert (2 ^ (52 + (k + c)) < 2 ^ 106) as Hpow.
    { assert (Z.pos m' * 2 ^ (k + c) * n <= Z.pos m * 2 ^ 53 + Z.pos m)
        as Hup by lia.
      assert (2 ^ 52 * 2 ^ (k + c) * 1 <= Z.pos m' * 2 ^ (k + c) * n) as Hlow.
      { assert (0 < 2 ^ (k + c)) by (apply Z.pow_pos_nonneg; lia).
        apply Z.mul_le_mono_nonneg; try lia.
        apply Z.mul_le_mono_nonneg; lia. }
      rewrite Z.pow_add_r by lia.
      change (2 ^ 106) with (2 ^ 53 * 2 ^ 53). nia. }
    apply Z.pow_lt_mono_r_iff in Hpow; lia. }
  exists m', (k + c).
  destruct (Z.leb_spec (e + k - 53 + c) 971) as [_|?]; [|lia].
  split; [f_equal; lia|]. split; [done|]. split; [lia|done].
Qed.

(** Normal numbers are ordered by exponent, then by mantissa. *)
Lemma ltb_normal (ma mb : positive) (ea eb xa xb : Z) :
  2 ^ 52 <= Z.pos ma < 2 ^ 53 -> 2 ^ 52 <= Z.pos mb < 2 ^ 53 ->
  0 <= xa -> 0 <= xb -> ea - xa = eb - xb ->
  Z.pos ma * 2 ^ xa < Z.pos mb * 2 ^ xb ->
  ltb (S754_finite false ma ea) (S754_finite false mb eb) = true.
Proof.
  intros Ha Hb Hxa Hxb He Hlt. unfold ltb, SFltb, SFcompare.
  assert (0 < 2 ^ xb) as Hpb by (apply Z.pow_pos_nonneg; lia).
  destruct (Z.compare_spec ea eb) as [Heq|Hless|Hmore]; [|done|].
  - assert (xa = xb) as -> by lia.
    change (Pos.compare_cont Eq ma mb) with (Pos.compare ma mb).
    assert (ma < mb)%positive as Hm by (apply Pos2Z.pos_lt_pos; nia).
    by rewrite (proj2 (Pos.compare_lt_iff ma mb) Hm).
  - exfalso.
    assert (2 ^ xa = 2 ^ (xa - xb) * 2 ^ xb) as Hsplit
      by (rewrite <- Z.pow_add_r by lia; f_equal; lia).
    assert (2 ^ 1 <= 2 ^ (xa - xb)) as Hstep
      by (apply Z.pow_le_mono_r; lia).
    change (2 ^ 1) with 2 in Hstep. rewrite Hsplit in Hlt. nia.
Qed.

(** Dividing by one more gives strictly less, as long as the divisor is
    below 2^52 and the quotients stay normal. *)
Lemma truediv_succ_lt (x : float) (n : Z) :
  ordinary x = true -> 1 <= n < 2 ^ 52 ->
  ltb (truediv x (of_int (n + 1))) (truediv x (of_int n)) = true.
Proof.
  intros Hx Hn. destruct x as [| | |[] m e]; try done.
  unfold ordinary in Hx. apply andb_prop in Hx as [Hx He2].
  apply andb_prop in Hx as [Hm He1].
  apply Z.eqb_eq, digits2_bounds in Hm.
  apply Z.leb_le in He1, He2. change (2 ^ (53 - 1)) with (2 ^ 52) in Hm.
  assert (2 ^ 52 + 1 < 2 ^ 53) as Hpow by done.
  destruct (truediv_of_int m e (n + 1)) as (ma & xa & -> & Ha & Hxa & Hneara);
    [done|lia|lia|].
  destruct (truediv_of_int m e n) as (mb & xb & -> & Hb & Hxb & Hnearb);
    [done|lia|lia|].
  apply (ltb_normal ma mb _ _ xa xb); try done; [lia|].
  set (A := Z.pos ma * 2 ^ xa) in *. set (B := Z.pos mb * 2 ^ xb) in *.
  set (T := Z.pos m * 2 ^ 53) in *.
  assert (0 < T) as HT by (unfold T; lia).
  assert (0 < 2 ^ xa) as Hpa by (apply Z.pow_pos_nonneg; lia).
  assert (0 < A) as HA by (unfold A; nia).
  clearbody A B T. change (2 ^ 52) with 4503599627370496 in Hn.
  change (2 ^ 53) with 9007199254740992 in Hneara, Hnearb.
  destruct (Z.lt_ge_cases A B) as [?|Hge]; [done|exfalso].
  assert (9007199254740992 * (A * (n + 1)) <= 9007199254740993 * T)
    as Hup by lia.
  assert (9007199254740991 * T <= 9007199254740992 * (B * n))
    as Hlow by lia.
  assert (B * n <= A * n) as Hmono by nia.
  assert (9007199254740991 * T * (n + 1) <= 9007199254740993 * T * n)
    as Hcross by nia.
  nia.
Qed.

(** [float(n)] of a count is a positive number, so no division by it
    raises [ZeroDivisionError]. *)
Lemma of_int_positive (n : Z) :
  1 <= n < 2 ^ 53 -> ltb zero (of_int n) = true.
Proof. intros Hn. by destruct (of_int_normal n Hn) as (_ & _ & ->). Qed.

(** A sum that is zero, infinite or not a number is left as it is by the
    division. *)
Lemma truediv_not_finite (x : float) (n : Z) :
  1 <= n < 2 ^ 53 ->
  match x with S754_finite _ _ _ => False | _ => True end ->
  truediv x (of_int n) = x.
Proof.
  intros Hn Hx. destruct (of_int_normal n Hn) as (_ & _ & ->).
  by destruct x as [[]|[]| |].
Qed.

End binary64_facts.

(** ** Cell 22: the training loop's bookkeeping *)

Section training_facts.
Import Training.

Lemma gtb_lt (a b : Q) : gtb a b = true <-> (b < a)%Q.
Proof. unfold gtb, Qlt. apply Z.ltb_lt. Qed.

Lemma gtb_le (a b : Q) : gtb a b = false <-> (a <= b)%Q.
Proof. unfold gtb, Qle. apply Z.ltb_ge. Qed.

(** The batch loop adds the losses up from the left and counts them. *)
Lemma batch_loop_sum (losses : list Binary64.float)
    (epoch_loss : Binary64.float) (step : Z) :
  batch_loop losses epoch_loss step =
  (foldl Binary64.add epoch_loss losses, step + len losses).
Proof.
  revert epoch_loss step.
  induction losses as [|loss losses IH]; intros epoch_loss step; simpl.
  { unfold len. simpl. f_equal. lia. }
  rewrite IH. unfold len. simpl. f_equal. lia.
Qed.

Lemma train_S (k : nat) (run : Z -> epoch_run) :
  train (S k) run = epoch_body run (train k run) (Z.of_nat k).
Proof. unfold train. by rewrite range_S, foldl_app. Qed.

(** What the loop reports as an epoch's average loss. *)
Lemma epoch_loss_values_train (epoch_num : nat) (run : Z -> epoch_run) :
  epoch_loss_values (train epoch_num run) =
  (fun k : nat =>
     Binary64.truediv
       (foldl Binary64.add Binary64.zero (losses (run (Z.of_nat k))))
       (Binary64.of_int (len (losses (run (Z.of_nat k))) + 1)))
  <$> seq 0 epoch_num.
Proof.
  induction epoch_num as [|n IH]; [done|].
  rewrite train_S, seq_S, fmap_app. simpl. rewrite <- IH.
  unfold epoch_body. rewrite batch_loop_sum.
  rewrite (Z.add_comm 1). by destruct (gtb _ _).
Qed.

Lemma metric_values_train (epoch_num : nat) (run : Z -> epoch_run) :
  metric_values (train epoch_num run) =
  (fun k : nat => auc_metric (run (Z.of_nat k))) <$> seq 0 epoch_num.
Proof.
  induction epoch_num as [|n IH]; [done|].
  rewrite train_S, seq_S, fmap_app. simpl. rewrite <- IH.
  unfold epoch_body. destruct (batch_loop _ _ _). by destruct (gtb _ _).
Qed.

(** One epoch's effect on the best metric and on the checkpoint file. *)
Lemma epoch_body_best (run : Z -> epoch_run) (s : state) (epoch : Z) :
  let s' := epoch_body run s epoch in
  let auc := auc_metric (run epoch) in
  ((best_metric s < auc)%Q ->
   saved s' = saved s ++ [epoch + 1] /\
   best_metric s' = auc /\ best_metric_epoch s' = epoch + 1) /\
  ((auc <= best_metric s)%Q ->
   saved s' = saved s /\
   best_metric s' = best_metric s /\
   best_metric_epoch s' = best_metric_epoch s) /\
  (best_metric s <= best_metric s')%Q.
Proof.
  intros s' auc. subst s'. unfold epoch_body.
  destruct (batch_loop _ _ _) as [epoch_loss step]. fold auc.
  destruct (gtb auc (best_metric s)) eqn:Hgt; simpl.
  - apply gtb_lt in Hgt. split; [done|]. split.
    + intros Hle. exfalso. by apply (Qlt_not_le _ _ Hgt).
    + by apply Qlt_le_weak.
  - apply gtb_le in Hgt. split; [|split; [done | apply Qle_refl]].
    intros Hlt. exfalso. by apply (Qlt_not_le _ _ Hlt).
Qed.

(** Where the best metric stands after [n] epochs whose AUCs exceed -1. *)
Lemma train_best (n : nat) (run : Z -> epoch_run) :
  (forall k : nat, (k < n)%nat -> (-1 < auc_metric (run (Z.of_nat k)))%Q) ->
  match n with
  | O => best_metric (train n run) = (-1 # 1) /\
         best_metric_epoch (train n run) = -1
  | S _ =>
      exists k : nat, (k < n)%nat /\
        best_metric_epoch (train n run) = Z.of_nat k + 1 /\
        best_metric (train n run) = auc_metric (run (Z.of_nat k)) /\
        (forall j : nat, (j < n)%nat ->
           (auc_metric (run (Z.of_nat j)) <= best_metric (train n run))%Q) /\
        (forall j : nat, (j < k)%nat ->
           (auc_metric (run (Z.of_nat j)) < best_metric (train n run))%Q)
  end.
Proof.
  induction n as [|n IH]; intros Hauc; [done|].
  specialize (IH ltac:(intros; apply Hauc; lia)).
  rewrite train_S.
  pose proof (epoch_body_best run (train n run) (Z.of_nat n))
    as (Hup & Hkeep & _).
  set (s := train n run) in *.
  set (s' := epoch_body run s (Z.of_nat n)) in *.
  set (auc := auc_metric (run (Z.of_nat n))) in *.
  destruct (Qlt_le_dec (best_metric s) auc) as [Hlt|Hle].
  - destruct (Hup Hlt) as (_ & Hbest & Hepoch).
    exists n. rewrite Hbest, Hepoch. repeat split; [lia|..].
    + intros j Hj. destruct (decide (j = n)) as [->|Hne]; [apply Qle_refl|].
      apply Qlt_le_weak. eapply Qle_lt_trans; [|exact Hlt].
      destruct n as [|n']; [lia|].
      destruct IH as (k & _ & _ & _ & Hall & _). apply Hall. lia.
    + intros j Hj. eapply Qle_lt_trans; [|exact Hlt].
      destruct n as [|n']; [lia|].
      destruct IH as (k & _ & _ & _ & Hall & _). apply Hall. lia.
  - destruct (Hkeep Hle) as (_ & Hbest & Hepoch).
    destruct n as [|n'].
    { exfalso. destruct IH as [IH _]. subst s auc. rewrite IH in Hle.
      apply (Qlt_not_le _ _ (Hauc 0%nat ltac:(lia))). exact Hle. }
    destruct IH as (k & Hk & Hek & Hbk & Hall & Hfirst).
    exists k. rewrite Hbest, Hepoch. repeat split; [lia|done|done|..].
    + intros j Hj. destruct (decide (j = S n')) as [->|Hne]; [exact Hle|].
      apply Hall. lia.
    + exact Hfirst.
Qed.

End training_facts.

Lemma saved_last (n : nat) (run : Z -> Training.epoch_run) :
  let s := Training.train n run in
  (Training.saved s = [] /\ Training.best_metric s = (-1 # 1)%Q /\
   Training.best_metric_epoch s = -1) \/
  last (Training.saved s) = Some (Training.best_metric_epoch s).
Proof.
  induction n as [|n IH]; simpl; [by left|].
  rewrite train_S.
  pose proof (epoch_body_best run (Training.train n run) (Z.of_nat n))
    as (Hup & Hkeep & _). simpl in Hup, Hkeep, IH.
  destruct (Qlt_le_dec (Training.best_metric (Training.train n run))
              (Training.auc_metric (run (Z.of_nat n)))) as [Hlt|Hle].
  - destruct (Hup Hlt) as (-> & _ & ->). right. apply last_snoc.
  - destruct (Hkeep Hle) as (-> & -> & ->). exact IH.
Qed.

Section training_claims.
Import Training.

(** C4.  After each epoch's validation pass the weights are saved exactly
    when the epoch's AUC is strictly above the best so far, which then
    becomes the best; otherwise nothing is saved and the best stays.  So
    the best never decreases.  With AUCs above the initial -1 (an AUC lies
    in [0, 1]), after the loop [best_metric] is the largest entry of
    [metric_values], [best_metric_epoch] is the number, counted from 1, of
    the first epoch that reached it, and the file holds that epoch's
    weights; when no epoch ran both variables are still -1. *)
Theorem checkpoint_tracks_best (epoch_num : nat) (run : Z -> epoch_run) :
  (forall k : nat, (k < epoch_num)%nat ->
     (-1 < auc_metric (run (Z.of_nat k)))%Q) ->
  let s := train epoch_num run in
  (forall k : nat,
     let before := train k run in
     let after := train (S k) run in
     let auc := auc_metric (run (Z.of_nat k)) in
     ((best_metric before < auc)%Q ->
      saved after = saved before ++ [Z.of_nat k + 1] /\
      best_metric after = auc /\
      best_metric_epoch after = Z.of_nat k + 1) /\
     ((auc <= best_metric before)%Q ->
      saved after = saved before /\
      best_metric after = best_metric before /\
      best_metric_epoch after = best_metric_epoch before) /\
     (best_metric before <= best_metric after)%Q) /\
  (length (metric_values s) = epoch_num /\
   forall k : nat, (k < epoch_num)%nat ->
     metric_values s !! k = Some (auc_metric (run (Z.of_nat k)))) /\
  match epoch_num with
  | O => best_metric s = (-1 # 1)%Q /\ best_metric_epoch s = -1 /\ saved s = []
  | S _ =>
      exists k : nat,
        best_metric_epoch s = Z.of_nat k + 1 /\
        metric_values s !! k = Some (best_metric s) /\
        Forall (fun a => (a <= best_metric s)%Q) (metric_values s) /\
        (forall (j : nat) (a : Q), (j < k)%nat ->
           metric_values s !! j = Some a -> (a < best_metric s)%Q) /\
        last (saved s) = Some (best_metric_epoch s)
  end.
Proof.
  intros Hauc s.
  assert (forall k : nat, (k < epoch_num)%nat ->
            metric_values s !! k = Some (auc_metric (run (Z.of_nat k))))
    as Hvalues.
  { intros k Hk. subst s. rewrite metric_values_train, list_lookup_fmap.
    by rewrite lookup_seq_lt. }
  split; [|split].
  - intros k. rewrite train_S. apply epoch_body_best.
  - split; [|done]. subst s.
    by rewrite metric_values_train, length_fmap, length_seq.
  - pose proof (train_best epoch_num run Hauc) as Hbest.
    pose proof (saved_last epoch_num run) as Hsaved. fold s in Hbest, Hsaved.
    destruct epoch_num as [|n]; [done|].
    destruct Hbest as (k & Hk & Hepoch & Hbest & Hall & Hfirst).
    exists k. split; [done|]. split; [by rewrite Hvalues, Hbest|].
    split; [|split].
    + apply Forall_lookup. intros j a Hj.
      assert (j < S n)%nat as Hlt.
      { apply lookup_lt_Some in Hj. subst s.
        by rewrite metric_values_train, length_fmap, length_seq in Hj. }
      rewrite Hvalues in Hj by done. injection Hj as <-. by apply Hall.
    + intros j a Hj Ha. rewrite Hvalues in Ha by lia. injection Ha as <-.
      by apply Hfirst.
    + destruct Hsaved as [(_ & _ & Hnone)|Hsome]; [|done]. simpl in Hnone. lia.
Qed.

(** C8, amended.  The average loss the loop reports for an epoch of [N]
    batches is the sum of the losses, added up in binary64 from the left,
    divided by [N + 1]: [step] starts at 1 and has been incremented once
    per batch when it divides; the divisor is a positive number, so the
    division does not raise.  Against the mean, the same sum divided by
    [N], for [1 <= N < 2^52]: the reported value is strictly less when the
    sum is a positive normal number of at least 2^-969; it is the mean
    itself, and so not less, when the sum is zero, infinite or not a
    number. *)
Theorem epoch_loss_divisor (epoch_num : nat) (run : Z -> epoch_run) (k : nat) :
  (k < epoch_num)%nat ->
  let N := len (losses (run (Z.of_nat k))) in
  let total := foldl Binary64.add Binary64.zero (losses (run (Z.of_nat k))) in
  let reported := Binary64.truediv total (Binary64.of_int (N + 1)) in
  let mean := Binary64.truediv total (Binary64.of_int N) in
  epoch_loss_values (train epoch_num run) !! k = Some reported /\
  (N < 2 ^ 52 ->
   Binary64.ltb Binary64.zero (Binary64.of_int (N + 1)) = true) /\
  (1 <= N < 2 ^ 52 ->
   (Binary64.ordinary total = true -> Binary64.ltb reported mean = true) /\
   (match total with S754_finite _ _ _ => False | _ => True end ->
    reported = mean /\ Binary64.ltb reported mean = false)).
Proof.
  intros Hk N total reported mean.
  assert (2 ^ 52 + 1 < 2 ^ 53) as Hpow by done.
  split; [|split].
  - rewrite epoch_loss_values_train, list_lookup_fmap.
    by rewrite lookup_seq_lt.
  - intros HN. apply of_int_positive. unfold N, len in *. lia.
  - intros HN. split.
    + intros Htotal. by apply truediv_succ_lt.
    + intros Htotal. subst reported mean.
      rewrite !truediv_not_finite by (done || lia).
      split; [done|]. by destruct total as [[]|[]| |].
Qed.

End training_claims.

Lemma checkpoint_tracks_best_witness :
  (forall k : nat, (k < 3)%nat ->
     (-1 < Training.auc_metric (Demo.run (Z.of_nat k)))%Q) /\
  exists k : nat,
    Training.best_metric_epoch (Training.train 3 Demo.run) = Z.of_nat k + 1 /\
    Training.metric_values (Training.train 3 Demo.run) !! k =
      Some (Training.best_metric (Training.train 3 Demo.run)).
Proof.
  assert (forall k : nat, (k < 3)%nat ->
            (-1 < Training.auc_metric (Demo.run (Z.of_nat k)))%Q) as Hauc.
  { intros k Hk. unfold Demo.run. simpl.
    destruct (Z.of_nat k =? 1); reflexivity. }
  split; [exact Hauc|].
  destruct (checkpoint_tracks_best 3 Demo.run Hauc)
    as (_ & _ & k & Hepoch & Hbest & _).
  exists k. split; [exact Hepoch | exact Hbest].
Defined.

(** The losses [0.5] and [0.3333333333333333] are reported as
    [0.27777777777777773]; their mean is [0.41666666666666663]. *)
Lemma epoch_loss_divisor_witness :
  (1 < 3)%nat /\
  Training.epoch_loss_values (Training.train 3 Demo.run) !! 1%nat =
    Some (S754_finite false 5003999585967217 (-54)) /\
  Binary64.ltb (S754_finite false 5003999585967217 (-54))
    (S754_finite false 7505999378950826 (-54)) = true.
Proof.
  split; [lia|].
  destruct (epoch_loss_divisor 3 Demo.run 1 ltac:(lia))
    as (Hvalue & _ & Hless).
  split; [exact Hvalue|].
  exact (proj1 (Hless ltac:(by vm_compute)) eq_refl).
Defined.

(** C8 as stated fails on an epoch whose losses are all [0.0]: the reported
    value is then [0.0], which is the mean, not below it. *)
Lemma epoch_loss_zero_not_below_mean :
  let N := len (Training.losses (Demo.run_zero 0)) in
  let total :=
    foldl Binary64.add Binary64.zero (Training.losses (Demo.run_zero 0)) in
  let reported := Binary64.truediv total (Binary64.of_int (N + 1)) in
  let mean := Binary64.truediv total (Binary64.of_int N) in
  1 <= N /\
  Training.epoch_loss_values (Training.train 1 Demo.run_zero) !! 0%nat =
    Some reported /\
  reported = Binary64.zero /\ mean = Binary64.zero /\
  ~ Binary64.ltb reported mean = true.
Proof. by vm_compute. Qed.

(** An epoch that meets an infinite loss, or whose sum overflows as
    [1e308 + 1e308] does, reports infinity. *)
Example epoch_loss_infinite :
  let inf := S754_infinity false in
  let big := S754_finite false 5010420900022432 971 in
  Training.epoch_loss_values
    (Training.train 1 (fun _ => Training.mk_run [Demo.half; inf] (1 # 2)%Q))
    = [inf] /\
  Training.epoch_loss_values
    (Training.train 1 (fun _ => Training.mk_run [big; big] (1 # 2)%Q))
    = [inf].
Proof. by vm_compute. Qed.

(** ** Cells 4, 6 and 40: the data directory *)

Section datadir_claims.
Import DataDir.
Context `{OS}.

(** C5.  When [MONAI_DATA_DIRECTORY] is set, [root_dir] is its value and
    nothing is created; when it is unset, [root_dir] is the directory
    [tempfile.mkdtemp()] has just created, or the cell raises what
    [mkdtemp] raised.  Setting or unsetting any other variable changes
    neither the branch taken nor, when the variable is set, the result. *)
Theorem setup_root_dir (environ : gmap string string) (fs : FS) :
  (forall d, environ !! "MONAI_DATA_DIRECTORY" = Some d ->
     setup environ fs = Ok (Some d, d, fs)) /\
  (environ !! "MONAI_DATA_DIRECTORY" = None ->
     (forall root_dir fs',
        mkdtemp environ fs = Ok (root_dir, fs') ->
        setup environ fs = Ok (None, root_dir, fs') /\
        path_exists fs root_dir = false /\ path_isdir fs' root_dir = true) /\
     (forall e, mkdtemp environ fs = Raise e -> setup environ fs = Raise e)) /\
  (forall k v d, k <> "MONAI_DATA_DIRECTORY" ->
     environ !! "MONAI_DATA_DIRECTORY" = Some d ->
     setup (<[k := v]> environ) fs = setup environ fs /\
     setup (delete k environ) fs = setup environ fs) /\
  (forall k v, k <> "MONAI_DATA_DIRECTORY" ->
     environ !! "MONAI_DATA_DIRECTORY" = None ->
     setup (<[k := v]> environ) fs =
       ('(root_dir, fs') ← mkdtemp (<[k := v]> environ) fs;
        Ok (None, root_dir, fs')) /\
     setup (delete k environ) fs =
       ('(root_dir, fs') ← mkdtemp (delete k environ) fs;
        Ok (None, root_dir, fs'))).
Proof.
  unfold setup. split; [|split; [|split]].
  - by intros d ->.
  - intros ->. split.
    + intros root_dir fs' Hmk. rewrite Hmk. split; [done|].
      by eapply mkdtemp_fresh.
    + by intros e ->.
  - intros k v d Hk Hd.
    by rewrite lookup_insert_ne, lookup_delete_ne, Hd.
  - intros k v Hk Hd.
    by rewrite lookup_insert_ne, lookup_delete_ne, Hd.
Qed.

(** C9.  The tidy-up removes [root_dir] exactly when the variable was
    unset when cell 4 ran, that is when [root_dir] is the temporary
    directory; a directory the user named is left alone, and so is the
    rest of the file system. *)
Theorem tidy_up_only_temporary (environ : gmap string string) (fs0 fs1 : FS)
    (directory : option string) (root_dir : string) (fs : FS) :
  setup environ fs0 = Ok (directory, root_dir, fs1) ->
  directory = environ !! "MONAI_DATA_DIRECTORY" /\
  (environ !! "MONAI_DATA_DIRECTORY" = None ->
     mkdtemp environ fs0 = Ok (root_dir, fs1) /\
     tidy_up directory root_dir fs = rmtree root_dir fs) /\
  (forall d, environ !! "MONAI_DATA_DIRECTORY" = Some d ->
     root_dir = d /\ tidy_up directory root_dir fs = Ok fs).
Proof.
  unfold setup. intros Hsetup.
  destruct (environ !! "MONAI_DATA_DIRECTORY") as [d|] eqn:Hd.
  - injection Hsetup as <- <- <-. split; [done|]. split; [done|].
    by intros d' [= <-].
  - apply bind_ok in Hsetup as ([root fs'] & Hmk & Hok).
    injection Hok as <- <- <-. split; [done|]. split; [done|]. done.
Qed.

End datadir_claims.

Lemma tidy_up_only_temporary_witness :
  DataDir.setup (H := Demo.os) Demo.environ Demo.disk =
    Ok (Some "/data", "/data", Demo.disk) /\
  DataDir.tidy_up (H := Demo.os) (Some "/data") "/data" Demo.disk =
    Ok Demo.disk.
Proof.
  split; [reflexivity|].
  destruct (tidy_up_only_temporary (H := Demo.os) Demo.environ
              Demo.disk Demo.disk (Some "/data") "/data" Demo.disk
              eq_refl) as (_ & _ & Hset).
  exact (proj2 (Hset "/data" eq_refl)).
Defined.

(** ** Loops and comprehensions over [range] *)

Section loop_facts.
Context {A B : Type}.

Lemma getitem_nat_ok (l : list A) (k : nat) (x : A) :
  getitem l (Z.of_nat k) = Ok x -> l !! k = Some x.
Proof.
  intros Hget. apply getitem_ok in Hget as [_ Hx].
  destruct (Z.ltb_spec (Z.of_nat k) 0) as [?|_]; [lia|].
  by rewrite Nat2Z.id in Hx.
Qed.

Lemma lookup_range (n k : nat) (i : Z) :
  range n !! k = Some i <-> i = Z.of_nat k /\ (k < n)%nat.
Proof.
  unfold range. rewrite list_lookup_fmap. split.
  - destruct (seq 0 n !! k) as [j|] eqn:Hj; [|done].
    apply lookup_seq in Hj as [-> ?]. by intros [= <-].
  - intros [-> Hk]. by rewrite lookup_seq_lt.
Qed.

Lemma length_range (n : nat) : length (range n) = n.
Proof. unfold range. by rewrite length_fmap, length_seq. Qed.

(** A comprehension returns exactly when every element expression does. *)
Lemma comprehension_ok (f : A -> result B) (items : list A) (ys : list B) :
  comprehension f items = Ok ys <-> Forall2 (fun x y => f x = Ok y) items ys.
Proof.
  revert ys. induction items as [|x items IH]; intros ys; simpl.
  - split; [by intros [= <-]; constructor | by inversion 1].
  - split.
    + intros Hc. apply bind_ok in Hc as (y & Hy & Hc).
      apply bind_ok in Hc as (ys' & Hys & [= <-]).
      constructor; [done | by apply IH].
    + inversion 1 as [|? y ? ys' Hy Hys]; subst.
      rewrite Hy. simpl. apply IH in Hys. by rewrite Hys.
Qed.

Lemma comprehension_total (f : A -> B) (items : list A) :
  comprehension (fun x => Ok (f x)) items = Ok (f <$> items).
Proof. induction items as [|x items IH]; simpl; [done | by rewrite IH]. Qed.

(** It raises what its first failing element expression raises. *)
Lemma comprehension_raise (f : A -> result B) (items : list A) (x : A) (e : exn) :
  x ∈ items -> f x = Raise e ->
  exists x' e', x' ∈ items /\ f x' = Raise e' /\
                comprehension f items = Raise e'.
Proof.
  intros Hin Hx. induction Hin as [x items|x x0 items Hin IH]; simpl.
  - exists x, e. rewrite Hx. split; [constructor | done].
  - destruct (f x0) as [y|e0] eqn:Hx0; simpl.
    + destruct (IH Hx) as (x' & e' & Hin' & Hx' & ->).
      exists x', e'. split; [by constructor | done].
    + exists x0, e0. split; [constructor | done].
Qed.

(** An invariant carried round by round through a loop over [range n]. *)
Lemma for_each_range_invariant {S} (body : Z -> S -> result S)
    (Inv : nat -> S -> Prop) (n : nat) (s0 s : S) :
  Inv 0%nat s0 ->
  (forall (k : nat) (s s' : S), (k < n)%nat ->
     Inv k s -> body (Z.of_nat k) s = Ok s' -> Inv (Datatypes.S k) s') ->
  for_each body (range n) s0 = Ok s -> Inv n s.
Proof.
  intros Hinit Hstep. revert s.
  induction n as [|n IH]; intros s.
  { by intros [= <-]. }
  rewrite range_S, for_each_app. intros Hloop.
  apply bind_ok in Hloop as (s1 & Hloop & Hlast). simpl in Hlast.
  apply bind_ok in Hlast as (s2 & Hbody & [= <-]).
  apply (Hstep n s1); [lia| |done].
  apply IH; [|done]. intros k t t' Hk. apply Hstep. lia.
Qed.

End loop_facts.

Lemma sum_snoc (l : list Z) (x : Z) : sum (l ++ [x]) = sum l + x.
Proof. unfold sum. by rewrite foldl_app. Qed.

(** ** Cell 10: the enumeration *)

Section enumeration_facts.
Import Enumeration.
Context `{OS}.

(** What a successful run of the cell went through. *)
Lemma enumerate_steps (fs : FS) (data_dir : string) (r : listing) :
  enumerate fs data_dir = Ok r ->
  exists entries,
    listdir fs data_dir = Ok entries /\
    class_names r =
      sorted (filter (fun x => path_isdir fs (path_join data_dir [x])) entries) /\
    num_class r = length (class_names r) /\
    comprehension (fun i =>
        name ← getitem (class_names r) i;
        xs ← listdir fs (path_join data_dir [name]);
        comprehension (fun x =>
            name ← getitem (class_names r) i;
            Ok (path_join data_dir [name; x])) xs)
      (range (num_class r)) = Ok (image_files r) /\
    comprehension (fun i =>
        files ← getitem (image_files r) i; Ok (len files))
      (range (num_class r)) = Ok (num_each r) /\
    for_each (extend_body (image_files r) (num_each r))
      (range (num_class r)) ([], []) =
      Ok (image_files_list r, image_class r) /\
    num_total r = length (image_class r) /\
    exists first,
      getitem (image_files_list r) 0 = Ok first /\
      image_size fs first = Ok (image_width r, image_height r).
Proof.
  unfold enumerate. intros Hrun.
  apply bind_ok in Hrun as (entries & Hentries & Hrun).
  apply bind_ok in Hrun as (files & Hfiles & Hrun).
  apply bind_ok in Hrun as (each & Heach & Hrun).
  apply bind_ok in Hrun as ([fl cl] & Hloop & Hrun).
  apply bind_ok in Hrun as (first & Hfirst & Hrun).
  apply bind_ok in Hrun as ([w h] & Hsize & [= <-]). simpl.
  exists entries. repeat (split; [done|]). eauto.
Qed.

(** Each entry of [image_files] is one class directory's listing. *)
Lemma image_files_listing (fs : FS) (data_dir : string) (names : list string)
    (image_files : list (list string)) :
  comprehension (fun i =>
      name ← getitem names i;
      xs ← listdir fs (path_join data_dir [name]);
      comprehension (fun x =>
          name ← getitem names i;
          Ok (path_join data_dir [name; x])) xs)
    (range (length names)) = Ok image_files ->
  length image_files = length names /\
  forall (k : nat) files, image_files !! k = Some files ->
    exists name xs,
      names !! k = Some name /\
      listdir fs (path_join data_dir [name]) = Ok xs /\
      files = (fun x => path_join data_dir [name; x]) <$> xs.
Proof.
  intros Hc. apply comprehension_ok in Hc.
  split. { apply Forall2_length in Hc. by rewrite length_range in Hc. }
  intros k files Hk.
  destruct (Forall2_lookup_r _ _ _ _ _ Hc Hk) as (i & Hi & Hf).
  apply lookup_range in Hi as [-> Hlt].
  apply bind_ok in Hf as (name & Hname & Hf).
  apply bind_ok in Hf as (xs & Hxs & Hf).
  rewrite Hname in Hf. simpl in Hf.
  rewrite (comprehension_total (fun x => path_join data_dir [name; x])) in Hf.
  injection Hf as <-. apply getitem_nat_ok in Hname. eauto.
Qed.

Lemma num_each_lengths (image_files : list (list string)) (num_each : list Z)
    (n : nat) :
  comprehension (fun i => files ← getitem image_files i; Ok (len files))
    (range n) = Ok num_each ->
  length num_each = n /\
  forall (k : nat) m, num_each !! k = Some m ->
    exists files, image_files !! k = Some files /\ m = len files.
Proof.
  intros Hc. apply comprehension_ok in Hc.
  split. { apply Forall2_length in Hc. by rewrite length_range in Hc. }
  intros k m Hk.
  destruct (Forall2_lookup_r _ _ _ _ _ Hc Hk) as (i & Hi & Hf).
  apply lookup_range in Hi as [-> Hlt].
  apply bind_ok in Hf as (files & Hfiles & [= <-]).
  apply getitem_nat_ok in Hfiles. eauto.
Qed.

(** The two lists the second loop builds go together item by item. *)
Lemma extend_rounds (fs : FS) (data_dir : string) (names : list string)
    (image_files : list (list string)) (num_each : list Z)
    (fl : list string) (cl : list Z) :
  (forall (k : nat) files, image_files !! k = Some files ->
     exists name xs,
       names !! k = Some name /\
       listdir fs (path_join data_dir [name]) = Ok xs /\
       files = (fun x => path_join data_dir [name; x]) <$> xs) ->
  (forall (k : nat) m, num_each !! k = Some m ->
     exists files, image_files !! k = Some files /\ m = len files) ->
  for_each (extend_body image_files num_each) (range (length names)) ([], []) =
    Ok (fl, cl) ->
  Forall2 (fun path c =>
             c < len names /\ file_of_class fs data_dir names path c) fl cl /\
  len fl = sum (take (length names) num_each).
Proof.
  intros Hfiles Heach Hloop.
  set (Inv := fun (k : nat) (st : list string * list Z) =>
    Forall2 (fun path c =>
               c < len names /\ file_of_class fs data_dir names path c)
            st.1 st.2 /\
    len st.1 = sum (take k num_each)).
  apply (for_each_range_invariant (extend_body image_files num_each) Inv
           (length names) ([], []) (fl, cl)); [by split; [constructor|]| |done].
  clear fl cl Hloop. subst Inv.
  intros k [fl cl] [fl' cl'] Hk [Hrel Hlen] Hbody.
  unfold extend_body in Hbody. simpl in Hrel, Hlen.
  apply bind_ok in Hbody as (files & Hget & Hbody).
  apply bind_ok in Hbody as (m & Hm & [= <- <-]).
  apply getitem_nat_ok in Hget. apply getitem_nat_ok in Hm.
  destruct (Heach k m Hm) as (files' & Hget' & ->).
  assert (files' = files) as -> by congruence.
  destruct (Hfiles k files Hget) as (name & xs & Hname & Hxs & ->).
  simpl. split.
  - apply Forall2_app; [done|]. unfold len. rewrite Nat2Z.id.
    apply Forall2_replicate_r; [done|].
    apply Forall_forall. intros path Hpath.
    apply list_elem_of_fmap in Hpath as (x & -> & Hx). simpl.
    split; [unfold len; lia|].
    exists name, xs, x. rewrite Nat2Z.id. repeat split; [lia|done..].
  - rewrite (take_S_r num_each k _ Hm), sum_snoc.
    unfold len in *. rewrite length_app. lia.
Qed.

(** C7.  After the enumeration cell has run, [class_names] is the sorted
    list of the data directory's subdirectory names: a permutation of the
    entries that are directories, in non-decreasing order.
    [image_files_list] and [image_class] have the same length, which is
    [sum(num_each)] and [num_total]; every label is an integer [i] with
    [0 <= i < num_class]; and the file at any index is an entry of the
    directory of the class its label names, joined to that directory. *)
Theorem enumerate_invariant (fs : FS) (data_dir : string) (r : listing) :
  enumerate fs data_dir = Ok r ->
  (exists entries,
     listdir fs data_dir = Ok entries /\
     class_names r ≡ₚ
       filter (fun x => path_isdir fs (path_join data_dir [x])) entries /\
     StronglySorted String.le (class_names r)) /\
  num_class r = length (class_names r) /\
  (len (image_files_list r) = len (image_class r) /\
   len (image_class r) = sum (num_each r) /\
   Z.of_nat (num_total r) = len (image_class r)) /\
  Forall (fun i => 0 <= i < Z.of_nat (num_class r)) (image_class r) /\
  (forall (k : nat) (path : string) (c : Z),
     image_files_list r !! k = Some path -> image_class r !! k = Some c ->
     exists name xs x,
       class_names r !! Z.to_nat c = Some name /\
       listdir fs (path_join data_dir [name]) = Ok xs /\
       x ∈ xs /\ path = path_join data_dir [name; x]).
Proof.
  intros Hrun.
  apply enumerate_steps in Hrun
    as (entries & Hentries & Hnames & Hnum & Hfiles & Heach & Hloop & Htotal & _).
  rewrite Hnum in Hfiles, Heach, Hloop.
  apply image_files_listing in Hfiles as [Hlen_files Hfiles].
  apply num_each_lengths in Heach as [Hlen_each Heach].
  apply (extend_rounds fs data_dir _ _ _ _ _ Hfiles Heach) in Hloop
    as [Hrel Hsum].
  rewrite take_ge in Hsum by lia.
  split; [|split; [done|split; [|split]]].
  - exists entries. split; [done|]. rewrite Hnames. split.
    + apply merge_sort_Permutation.
    + apply (StronglySorted_merge_sort _).
  - pose proof (Forall2_length _ _ _ Hrel) as Hlen. unfold len in *.
    rewrite Htotal. lia.
  - rewrite Hnum. apply Forall_forall. intros c Hc.
    apply list_elem_of_lookup in Hc as [k Hc].
    destruct (Forall2_lookup_r _ _ _ _ _ Hrel Hc)
      as (path & _ & Hlt & name & xs & x & H0 & _).
    unfold len in Hlt. lia.
  - intros k path c Hpath Hc.
    destruct (Forall2_lookup_lr _ _ _ _ _ _ Hrel Hpath Hc)
      as (_ & name & xs & x & _ & Hname & Hxs & Hx & ->).
    eauto 10.
Qed.

(** C6.  Cell 6 calls [download_and_extract] only when the MedNIST
    directory does not exist yet, and then ends as the call ends: with its
    file system, or raising what it raised.  When the directory exists the
    cell leaves the file system as it is.  Cell 10 has no handler either:
    what [os.listdir] raises on the data directory, or on the first class
    directory it fails on, leaves the cell. *)
Theorem failures_propagate (root_dir : string) (fs : FS) :
  let data_dir := path_join root_dir ["MedNIST"] in
  let compressed_file := path_join root_dir ["MedNIST.tar.gz"] in
  (path_exists fs data_dir = true ->
     DataDir.fetch root_dir fs = Ok (data_dir, fs)) /\
  (path_exists fs data_dir = false ->
     (forall fs',
        download_and_extract DataDir.resource compressed_file root_dir
          DataDir.md5 fs = Ok fs' ->
        DataDir.fetch root_dir fs = Ok (data_dir, fs')) /\
     (forall e,
        download_and_extract DataDir.resource compressed_file root_dir
          DataDir.md5 fs = Raise e ->
        DataDir.fetch root_dir fs = Raise e)) /\
  (forall e, listdir fs data_dir = Raise e ->
     enumerate fs data_dir = Raise e) /\
  (forall entries name e,
     listdir fs data_dir = Ok entries ->
     name ∈ sorted (filter (fun x => path_isdir fs (path_join data_dir [x]))
                      entries) ->
     listdir fs (path_join data_dir [name]) = Raise e ->
     exists name' e',
       name' ∈ sorted (filter (fun x => path_isdir fs (path_join data_dir [x]))
                         entries) /\
       listdir fs (path_join data_dir [name']) = Raise e' /\
       enumerate fs data_dir = Raise e').
Proof.
  intros data_dir compressed_file. unfold DataDir.fetch.
  fold data_dir compressed_file.
  split; [by intros ->|]. split; [|split].
  - intros ->. simpl. split; [by intros fs' ->|by intros e ->].
  - intros e He. unfold enumerate. by rewrite He.
  - intros entries name e Hentries Hname He.
    unfold enumerate. rewrite Hentries. simpl.
    set (names := sorted _) in *.
    apply list_elem_of_lookup in Hname as [k Hk].
    pose proof (lookup_lt_Some _ _ _ Hk) as Hlt.
    destruct (comprehension_raise
      (fun i =>
         name ← getitem names i;
         xs ← listdir fs (path_join data_dir [name]);
         comprehension (fun x =>
             name ← getitem names i;
             Ok (path_join data_dir [name; x])) xs)
      (range (length names)) (Z.of_nat k) e) as (i & e' & Hi & Hfail & ->).
    { apply list_elem_of_lookup. exists k. by apply lookup_range. }
    { by rewrite (getitem_nat _ _ _ Hk); simpl; rewrite He. }
    apply list_elem_of_lookup in Hi as [j Hj].
    apply lookup_range in Hj as [-> Hj].
    destruct (lookup_lt_is_Some_2 names j Hj) as [name' Hname'].
    rewrite (getitem_nat _ _ _ Hname') in Hfail. simpl in Hfail.
    destruct (listdir fs (path_join data_dir [name'])) as [xs|e''] eqn:Hxs.
    + simpl in Hfail.
      by rewrite (comprehension_total
                    (fun x => path_join data_dir [name'; x])) in Hfail.
    + simpl in Hfail. injection Hfail as ->.
      exists name', e'. split; [|done].
      apply list_elem_of_lookup. eauto.
Qed.

End enumeration_facts.

Lemma enumerate_invariant_witness :
  let r := Enumeration.mk ["CXR"; "Hand"] 2
             [["/data/MedNIST/CXR/a.jpeg"];
              ["/data/MedNIST/Hand/1.jpeg"; "/data/MedNIST/Hand/0.jpeg"]]
             [1; 2]
             ["/data/MedNIST/CXR/a.jpeg"; "/data/MedNIST/Hand/1.jpeg";
              "/data/MedNIST/Hand/0.jpeg"]
             [0; 1; 1] 3 64 64 in
  Enumeration.enumerate (H := Demo.os) Demo.disk "/data/MedNIST" = Ok r /\
  Forall (fun i => 0 <= i < 2) (Enumeration.image_class r).
Proof.
  split; [reflexivity|].
  exact (proj1 (proj2 (proj2 (proj2
    (enumerate_invariant (H := Demo.os) Demo.disk "/data/MedNIST" _
       eq_refl))))).
Defined.

(** ** The cells run on the stand-ins *)

Example setup_named :
  DataDir.setup (H := Demo.os) Demo.environ Demo.disk =
  Ok (Some "/data", "/data", Demo.disk).
Proof. reflexivity. Qed.

Example setup_temporary :
  exists root_dir fs,
    DataDir.setup (H := Demo.os) ∅ Demo.disk = Ok (None, root_dir, fs) /\
    Demo.is_dir Demo.disk root_dir = false /\ Demo.is_dir fs root_dir = true.
Proof.
  eexists _, _. split; [reflexivity|]. by apply Demo.make_temp_fresh with ∅.
Qed.

Example fetch_present :
  DataDir.fetch (H := Demo.os) "/data" Demo.disk = Ok ("/data/MedNIST", Demo.disk).
Proof. reflexivity. Qed.

Example fetch_fails :
  DataDir.fetch (H := Demo.os) "/nowhere" Demo.disk =
  Raise (LibraryError "FileNotFoundError").
Proof. reflexivity. Qed.

Example enumerate_fails :
  Enumeration.enumerate (H := Demo.os) Demo.disk "/nowhere/MedNIST" =
  Raise (LibraryError "FileNotFoundError").
Proof. reflexivity. Qed.

Example tidy_up_temporary :
  DataDir.tidy_up (H := Demo.os) None "/data/MedNIST/CXR" Demo.disk =
  Ok (delete "/data/MedNIST/CXR" Demo.disk).
Proof. reflexivity. Qed.

Example dataset_short_labels :
  let self := Dataset.__init__ ["a.jpeg"; "b.jpeg"; "c.jpeg"] [0; 1]
                (fun file => Ok (String.length file)) in
  Dataset.__len__ self = 3 /\
  Dataset.__getitem__ self 1 = Ok (6%nat, 1) /\
  Dataset.__getitem__ self (-1) = Ok (6%nat, 1) /\
  Dataset.__getitem__ self 2 = Raise IndexError.
Proof. by repeat split. Qed.

(** Unlike cell 36, cell 14 depends on where the global generator stands. *)
Example split_by_draw_depends_on_generator :
  fst <$> Partition.split_by_draw (H := Demo.numpy) 10 Demo.files Demo.classes 7
  <> fst <$> Partition.split_by_draw (H := Demo.numpy) 10 Demo.files
               Demo.classes 8.
Proof. vm_compute. discriminate. Qed.

(** [floor(0.1 * 58954)], the count for the size of the MedNIST dataset *)
Example validation_count_mednist :
  F64.floor (F64.mul Partition.validation_proportion (F64.of_int 58954)) = 5895.
Proof. vm_compute. reflexivity. Qed.

(** ** Cell 36: the counts in exact terms *)

Section count_facts.
Import F64.

Lemma of_int_exact (n : Z) : 0 <= n < 2 ^ 53 -> of_int n = mk n 0.
Proof.
  intros Hn. unfold of_int, round53.
  destruct (Z.leb_spec (Z.log2 n + 1 - 53) 0) as [_|Hd]; [done|].
  exfalso. destruct (Z.eq_dec n 0) as [->|Hne]; [simpl in Hd; lia|].
  assert (Z.log2 n < 53) by (apply Z.log2_lt_pow2; lia). lia.
Qed.

(** Rounding to nearest moves a mantissa by at most one unit in the last
    place kept. *)
Lemma round53_near (m e : Z) :
  0 < Z.log2 m + 1 - 53 ->
  let d := Z.log2 m + 1 - 53 in
  expo (round53 m e) = e + d /\
  m / 2 ^ d <= mant (round53 m e) <= m / 2 ^ d + 1 /\
  2 ^ d * 2 ^ 52 <= m.
Proof.
  intros Hd d. unfold round53. fold d.
  destruct (Z.leb_spec d 0) as [?|_]; [lia|]. cbn [mant expo].
  rewrite Z.shiftr_div_pow2 by lia. split; [done|]. split.
  - destruct (_ || _); lia.
  - rewrite <- Z.pow_add_r by lia.
    replace (d + 52) with (Z.log2 m) by (subst d; lia).
    apply Z.log2_spec.
    destruct (Z_lt_le_dec 0 m) as [?|Hm]; [done|].
    rewrite (Z.log2_nonpos m Hm) in Hd. lia.
Qed.

Lemma floor_tenth_div (n : Z) :
  0 <= n < 2 ^ 51 -> floor (mul tenth (of_int n)) = n / 10.
Proof.
  intros Hn. assert (2 ^ 51 = 2251799813685248) as H51 by reflexivity.
  rewrite of_int_exact by lia. unfold mul. cbn [mant expo tenth].
  rewrite Z.add_0_r.
  set (m := 7205759403792794 * n).
  pose proof (Z.div_mod n 10 ltac:(lia)) as Hdiv.
  pose proof (Z.mod_pos_bound n 10 ltac:(lia)) as Hmod.
  set (q := n / 10) in *. set (r := n mod 10) in *.
  assert (2 ^ 56 = 72057594037927936) as H56 by reflexivity.
  assert (q * 2 ^ 56 <= m) as Hlo by (subst m; lia).
  destruct (Z_lt_le_dec 0 (Z.log2 m + 1 - 53)) as [Hd|Hd].
  - destruct (round53_near m (-56) Hd) as (He & [Hq1 Hq2] & Hbig).
    set (d := Z.log2 m + 1 - 53) in *.
    set (y := round53 m (-56)) in *. clearbody y.
    assert (m < 2 ^ 104) as Hm104.
    { subst m. change (2 ^ 104) with (2 ^ 53 * 2 ^ 51). nia. }
    assert (d < 52) as Hd52.
    { assert (Z.log2 m < 104) by (apply Z.log2_lt_pow2; [lia | done]).
      subst d. lia. }
    unfold floor. rewrite He.
    destruct (Z.leb_spec 0 (-56 + d)) as [?|_]; [lia|].
    rewrite Z.shiftr_div_pow2 by lia.
    replace (- (-56 + d)) with (56 - d) by lia.
    assert (0 < 2 ^ d) as HP by (apply Z.pow_pos_nonneg; lia).
    assert (0 < 2 ^ (56 - d)) as HS by (apply Z.pow_pos_nonneg; lia).
    assert (2 ^ d * 2 ^ (56 - d) = 2 ^ 56) as HPS.
    { rewrite <- Z.pow_add_r by lia. f_equal. lia. }
    assert (2 ^ 52 = 4503599627370496) as H52 by reflexivity.
    set (P := 2 ^ d) in *. set (S := 2 ^ (56 - d)) in *.
    assert (q * S <= m / P) as Ha.
    { apply Z.div_le_lower_bound; [lia|]. nia. }
    assert (m / P < (q + 1) * S - 1) as Hb.
    { apply Z.div_lt_upper_bound; [lia|].
      assert (m + P < (q + 1) * 2 ^ 56) by (subst m; lia). nia. }
    symmetry. apply (Z.div_unique_pos _ _ _ (mant y - q * S)); lia.
  - assert (round53 m (-56) = mk m (-56)) as ->.
    { unfold round53. by destruct (Z.leb_spec (Z.log2 m + 1 - 53) 0); [|lia]. }
    unfold floor. cbn [mant expo]. rewrite Z.shiftr_div_pow2 by lia.
    change (- -56) with 56.
    symmetry. apply (Z.div_unique_pos _ _ _ (m - q * 2 ^ 56)); subst m; lia.
Qed.

End count_facts.

(** X1.  For every dataset size below 2^51 the count the revised split
    computes in floating point, [floor(0.1 * num_total)], is the integer
    quotient [num_total // 10], for the validation and for the test set. *)
Theorem validation_count_tenth (num_total : nat) :
  Z.of_nat num_total < 2 ^ 51 ->
  Partition.validation_count num_total = Z.of_nat num_total / 10 /\
  Partition.test_count num_total = Z.of_nat num_total / 10.
Proof.
  intros Hn. unfold Partition.validation_count, Partition.test_count.
  split; apply floor_tenth_div; lia.
Qed.

Lemma validation_count_tenth_witness :
  Z.of_nat 25 < 2 ^ 51 /\ Partition.validation_count 25 = 2.
Proof.
  split; [reflexivity|].
  exact (proj1 (validation_count_tenth 25 eq_refl)).
Defined.

(** ** Cells 14 and 36 on lists shorter than [num_total] *)

Lemma range_split (n k : nat) :
  (k < n)%nat ->
  range n = range k ++ Z.of_nat k :: (Z.of_nat <$> seq (S k) (n - S k)).
Proof.
  intros Hk. unfold range.
  replace n with (k + S (n - S k))%nat at 1 by lia.
  by rewrite seq_app, fmap_app.
Qed.

Section short_input_facts.
Import Partition.
Context `{NumpyRandom}.

Lemma split_by_groups_unfold (seed : Z) (num_total : nat)
    (files : list string) (classes : list Z) (g : RandomState) :
  (split_by_groups seed num_total files classes g).1 =
  (st ← for_each
          (assign_body (shuffle (new_state seed) (initial_groups num_total)).1
             files classes)
          (range num_total) ([[]; []; []], [[]; []; []]);
   '(train_x, val_x, test_x) ← unpack3 st.1;
   '(train_y, val_y, test_y) ← unpack3 st.2;
   Ok (mk train_x train_y val_x val_y test_x test_y)).
Proof.
  unfold split_by_groups.
  destruct (shuffle (new_state seed) (initial_groups num_total)). cbn [fst].
  by destruct (for_each _ _ _) as [[??]|].
Qed.

(** The first [k] rounds of cell 36's loop need only the first [k] items. *)
Lemma assign_rounds_prefix (groups : list Z) (files : list string)
    (classes : list Z) (k : nat) :
  Forall (fun g => 0 <= g < 3) groups ->
  (k <= length groups)%nat -> (k <= length files)%nat ->
  (k <= length classes)%nat ->
  for_each (assign_body groups files classes) (range k)
    ([[]; []; []], [[]; []; []]) =
  Ok ([select 0 (take k groups) (take k files);
       select 1 (take k groups) (take k files);
       select 2 (take k groups) (take k files)],
      [select 0 (take k groups) (take k classes);
       select 1 (take k groups) (take k classes);
       select 2 (take k groups) (take k classes)]).
Proof.
  intros Hgs. induction k as [|k IH]; intros Hk Hkf Hkc; [done|].
  rewrite range_S, for_each_app, IH by lia. clear IH.
  destruct (lookup_lt_is_Some_2 groups k) as [g Hg]; [lia|].
  destruct (lookup_lt_is_Some_2 files k) as [x Hx]; [lia|].
  destruct (lookup_lt_is_Some_2 classes k) as [y Hy]; [lia|].
  rewrite (take_S_r groups k g), (take_S_r files k x),
    (take_S_r classes k y) by done.
  rewrite !select_app by (rewrite !length_take; lia).
  rewrite !select_cons, !select_nil.
  cbn [mbind result_bind for_each]. unfold assign_body.
  rewrite (getitem_nat groups k g Hg). cbn [mbind result_bind].
  unfold append_to.
  rewrite (getitem_nat files k x Hx), (getitem_nat classes k y Hy).
  pose proof (Forall_lookup_1 _ _ _ _ Hgs Hg) as Hrange. simpl in Hrange.
  assert (g = 0 \/ g = 1 \/ g = 2) as [->|[->| ->]] by lia;
    cbn; by rewrite ?app_nil_r.
Qed.

(** X2.  The revised split checks no lengths: when [image_files_list] or
    [image_class] has fewer than [num_total] items, the cell raises
    [IndexError] at the first missing item and assigns none of the six
    lists. *)
Theorem split_by_groups_short (seed : Z) (num_total : nat)
    (image_files_list : list string) (image_class : list Z)
    (g : RandomState) :
  (length image_files_list < num_total)%nat \/
  (length image_class < num_total)%nat ->
  (split_by_groups seed num_total image_files_list image_class g).1 =
  Raise IndexError.
Proof.
  intros Hshort. rewrite split_by_groups_unfold.
  set (groups := (shuffle (new_state seed) (initial_groups num_total)).1).
  assert (groups ≡ₚ initial_groups num_total) as Hperm by apply shuffle_perm.
  assert (length groups = num_total) as Hlen.
  { rewrite Hperm. apply initial_groups_length. }
  assert (Forall (fun g => 0 <= g < 3) groups) as Hrange.
  { rewrite Hperm. apply initial_groups_range. }
  set (k := (length image_files_list `min` length image_class)%nat).
  assert (k < num_total)%nat as Hk by lia.
  rewrite (range_split num_total k Hk), for_each_app.
  rewrite (assign_rounds_prefix groups _ _ k Hrange) by lia.
  destruct (lookup_lt_is_Some_2 groups k) as [gk Hgk]; [lia|].
  pose proof (Forall_lookup_1 _ _ _ _ Hrange Hgk) as Hgk3. simpl in Hgk3.
  cbn [mbind result_bind for_each]. unfold assign_body.
  rewrite (getitem_nat groups k gk Hgk). cbn [mbind result_bind].
  unfold append_to.
  destruct (decide (length image_files_list <= k)%nat) as [Hf|Hf].
  - rewrite (getitem_beyond image_files_list) by (unfold len; lia).
    assert (gk = 0 \/ gk = 1 \/ gk = 2) as [->|[->| ->]] by lia; done.
  - destruct (lookup_lt_is_Some_2 image_files_list k) as [x Hx]; [lia|].
    rewrite (getitem_nat image_files_list k x Hx).
    rewrite (getitem_beyond image_class) by (unfold len; lia).
    assert (gk = 0 \/ gk = 1 \/ gk = 2) as [->|[->| ->]] by lia; done.
Qed.

(** The first [k] rounds of cell 14's loop need only the first [k] items. *)
Lemma draw_rounds_prefix (files : list string) (classes : list Z)
    (g : RandomState) (k : nat) :
  (k <= length files)%nat -> (k <= length classes)%nat ->
  let groups := (fun i => bucket (draw g i)) <$> seq 0 k in
  for_each (draw_body files classes) (range k) (empty, g) =
  Ok (mk (select 0 groups (take k files)) (select 0 groups (take k classes))
         (select 1 groups (take k files)) (select 1 groups (take k classes))
         (select 2 groups (take k files)) (select 2 groups (take k classes)),
      advance k g).
Proof.
  induction k as [|k IH]; intros Hkf Hkc groups; [done|].
  rewrite range_S, for_each_app, IH by lia. clear IH.
  destruct (lookup_lt_is_Some_2 files k) as [x Hx]; [lia|].
  destruct (lookup_lt_is_Some_2 classes k) as [y Hy]; [lia|].
  subst groups. rewrite seq_S, fmap_app.
  rewrite (take_S_r files k x), (take_S_r classes k y) by done.
  rewrite !select_app by (rewrite length_fmap, length_seq, length_take; lia).
  cbn [mbind result_bind for_each]. unfold draw_body.
  rewrite advance_S. cbn [fmap list_fmap Nat.add].
  rewrite !select_cons, !select_nil. unfold bucket.
  destruct (F64.ltb (draw g k) val_frac);
    [|destruct (F64.ltb (draw g k) (F64.add test_frac val_frac))];
    rewrite (getitem_nat files k x Hx), (getitem_nat classes k y Hy);
    cbn; by rewrite ?app_nil_r.
Qed.

(** X3.  The original split checks no lengths either: with fewer than
    [num_total] files or labels it raises [IndexError] at the first missing
    item, whatever the draws are. *)
Theorem split_by_draw_short (num_total : nat)
    (image_files_list : list string) (image_class : list Z)
    (g : RandomState) :
  (length image_files_list < num_total)%nat \/
  (length image_class < num_total)%nat ->
  split_by_draw num_total image_files_list image_class g = Raise IndexError.
Proof.
  intros Hshort. unfold split_by_draw.
  set (k := (length image_files_list `min` length image_class)%nat).
  assert (k < num_total)%nat as Hk by lia.
  rewrite (range_split num_total k Hk), for_each_app.
  rewrite draw_rounds_prefix by lia.
  cbn [mbind result_bind for_each]. unfold draw_body.
  rewrite advance_S.
  destruct (decide (length image_files_list <= k)%nat) as [Hf|Hf].
  - rewrite (getitem_beyond image_files_list) by (unfold len; lia).
    by repeat case_match.
  - destruct (lookup_lt_is_Some_2 image_files_list k) as [x Hx]; [lia|].
    rewrite (getitem_nat image_files_list k x Hx).
    rewrite (getitem_beyond image_class) by (unfold len; lia).
    by repeat case_match.
Qed.

End short_input_facts.

Lemma split_by_groups_short_witness :
  ((length Demo.files < 10)%nat \/ (length (take 9 Demo.classes) < 10)%nat) /\
  (Partition.split_by_groups (H := Demo.numpy) Partition.dataset_seed 10
     Demo.files (take 9 Demo.classes) 0).1 = Raise IndexError.
Proof.
  assert ((length Demo.files < 10)%nat \/
          (length (take 9 Demo.classes) < 10)%nat) as Hshort
    by (right; simpl; lia).
  split; [exact Hshort|].
  exact (split_by_groups_short (H := Demo.numpy) Partition.dataset_seed 10
           Demo.files (take 9 Demo.classes) 0 Hshort).
Defined.

Lemma split_by_draw_short_witness :
  ((length (take 4 Demo.files) < 10)%nat \/ (length Demo.classes < 10)%nat) /\
  Partition.split_by_draw (H := Demo.numpy) 10 (take 4 Demo.files)
    Demo.classes 7 = Raise IndexError.
Proof.
  assert ((length (take 4 Demo.files) < 10)%nat \/
          (length Demo.classes < 10)%nat) as Hshort
    by (left; simpl; lia).
  split; [exact Hshort|].
  exact (split_by_draw_short (H := Demo.numpy) 10 (take 4 Demo.files)
           Demo.classes 7 Hshort).
Defined.

(** ** Cell 10 run forwards *)

Lemma getitem_nonneg {A} (l : list A) (i : Z) (x : A) :
  0 <= i -> l !! Z.to_nat i = Some x -> getitem l i = Ok x.
Proof.
  intros Hi Hx. rewrite <- (Z2Nat.id i) by done. by apply getitem_nat.
Qed.

Lemma getitem_first {A} (l : list A) (x : A) :
  l !! 0%nat = Some x -> getitem l 0 = Ok x.
Proof. apply (getitem_nat l 0). Qed.

Lemma labels_of_snoc (l : list (list string)) (files : list string) :
  Enumeration.labels_of (l ++ [files]) =
  Enumeration.labels_of l ++ replicate (length files) (Z.of_nat (length l)).
Proof.
  unfold Enumeration.labels_of. rewrite imap_app, join_app. simpl.
  by rewrite Nat.add_0_r, app_nil_r.
Qed.

Lemma labels_of_bound (l : list (list string)) :
  Forall (fun c => 0 <= c < Z.of_nat (length l)) (Enumeration.labels_of l).
Proof.
  induction l as [|files l IH] using rev_ind; [constructor|].
  rewrite labels_of_snoc, length_app. simpl. apply Forall_app. split.
  - eapply Forall_impl; [exact IH|]. simpl. lia.
  - apply Forall_replicate. lia.
Qed.

Lemma labels_of_sorted (l : list (list string)) :
  StronglySorted Z.le (Enumeration.labels_of l).
Proof.
  induction l as [|files l IH] using rev_ind; [constructor|].
  rewrite labels_of_snoc. apply StronglySorted_app_2; [|done|].
  - intros c1 c2 Hc1 Hc2. apply elem_of_replicate in Hc2 as [-> _].
    pose proof (labels_of_bound l) as Hb.
    apply (proj1 (Forall_forall _ _) Hb) in Hc1. lia.
  - generalize (length files). intros n.
    induction n as [|n IHn]; simpl; constructor; [done|].
    apply Forall_replicate. lia.
Qed.

Lemma count_absent (g : Z) (l : list Z) :
  Forall (fun c => c <> g) l -> Partition.count g l = 0.
Proof.
  unfold Partition.count, len. induction 1 as [|c l Hc _ IH]; [done|].
  rewrite filter_cons. by rewrite decide_False.
Qed.

Lemma labels_of_count (l : list (list string)) (i : nat) (files : list string) :
  l !! i = Some files ->
  Partition.count (Z.of_nat i) (Enumeration.labels_of l) = len files.
Proof.
  induction l as [|last l IH] using rev_ind; [done|].
  intros Hi. rewrite labels_of_snoc, count_app, count_replicate.
  destruct (decide (i = length l)) as [->|Hne].
  - rewrite list_lookup_middle in Hi by done. injection Hi as ->.
    rewrite decide_True by done.
    assert (Partition.count (Z.of_nat (length l)) (Enumeration.labels_of l) = 0)
      as ->; [|unfold len; lia].
    apply count_absent.
    eapply Forall_impl; [apply labels_of_bound|]. simpl. lia.
  - assert (i < length l)%nat as Hlt.
    { apply lookup_lt_Some in Hi. rewrite length_app in Hi. simpl in Hi. lia. }
    rewrite lookup_app_l in Hi by done.
    rewrite (IH Hi), decide_False by lia. lia.
Qed.

Section enumeration_forward.
Import Enumeration.
Context `{OS}.

Lemma class_listings (fs : FS) (data_dir : string) (names : list string)
    (contents : string -> list string) :
  (forall name, name ∈ names ->
     listdir fs (path_join data_dir [name]) = Ok (contents name)) ->
  comprehension (fun i =>
      name ← getitem names i;
      xs ← listdir fs (path_join data_dir [name]);
      comprehension (fun x =>
          name ← getitem names i;
          Ok (path_join data_dir [name; x])) xs)
    (range (length names)) =
  Ok ((fun name => (fun x => path_join data_dir [name; x]) <$> contents name)
      <$> names).
Proof.
  intros Hlist. apply comprehension_ok.
  apply Forall2_same_length_lookup_2.
  { by rewrite length_range, length_fmap. }
  intros k i files Hi Hfiles. apply lookup_range in Hi as [-> Hk].
  rewrite list_lookup_fmap in Hfiles.
  destruct (names !! k) as [name|] eqn:Hname; [|done].
  injection Hfiles as <-.
  rewrite (getitem_nat _ _ _ Hname). simpl.
  rewrite Hlist by (by eapply list_elem_of_lookup_2). simpl.
  apply comprehension_total.
Qed.

Lemma class_sizes (image_files : list (list string)) :
  comprehension (fun i => files ← getitem image_files i; Ok (len files))
    (range (length image_files)) = Ok (len <$> image_files).
Proof.
  apply comprehension_ok. apply Forall2_same_length_lookup_2.
  { by rewrite length_range, length_fmap. }
  intros k i n Hi Hn. apply lookup_range in Hi as [-> Hk].
  rewrite list_lookup_fmap in Hn.
  destruct (image_files !! k) as [files|] eqn:Hfiles; [|done].
  injection Hn as <-. by rewrite (getitem_nat _ _ _ Hfiles).
Qed.

Lemma extend_rounds_forward (image_files : list (list string)) (k : nat) :
  (k <= length image_files)%nat ->
  for_each (extend_body image_files (len <$> image_files)) (range k) ([], []) =
  Ok (mjoin (take k image_files), labels_of (take k image_files)).
Proof.
  induction k as [|k IH]; intros Hk; [done|].
  rewrite range_S, for_each_app, IH by lia. clear IH.
  destruct (lookup_lt_is_Some_2 image_files k) as [files Hfiles]; [lia|].
  rewrite (take_S_r _ _ _ Hfiles), join_app, labels_of_snoc.
  rewrite length_take, Nat.min_l by lia.
  cbn [mbind result_bind for_each]. unfold extend_body.
  rewrite (getitem_nat _ _ _ Hfiles). cbn [mbind result_bind].
  rewrite (getitem_nat (len <$> image_files) k (len files))
    by (by rewrite list_lookup_fmap, Hfiles).
  cbn. unfold len. by rewrite Nat2Z.id, app_nil_r.
Qed.

(** Whatever the cell returns is the flat form of its per-class lists. *)
Lemma enumerate_flat (fs : FS) (data_dir : string) (r : listing) :
  enumerate fs data_dir = Ok r ->
  length (image_files r) = num_class r /\
  num_each r = len <$> image_files r /\
  image_files_list r = mjoin (image_files r) /\
  image_class r = labels_of (image_files r).
Proof.
  intros Hrun.
  apply enumerate_steps in Hrun
    as (entries & _ & _ & Hnum & Hfiles & Heach & Hloop & _).
  rewrite Hnum in Hfiles.
  apply image_files_listing in Hfiles as [Hlen _]. rewrite <- Hnum in Hlen.
  split; [done|].
  rewrite <- Hlen, class_sizes in Heach. injection Heach as Heach.
  split; [done|].
  rewrite <- Heach, <- Hlen, extend_rounds_forward in Hloop by done.
  rewrite take_ge in Hloop by done. by injection Hloop as <- <-.
Qed.

End enumeration_forward.

Section enumeration_extras.
Import Enumeration.
Context `{OS}.

(** X4.  In what cell 10 returns, [image_files_list] is the per-class
    lists of [image_files] concatenated in class order, [num_each] holds
    their lengths, the labels in [image_class] never decrease, and label
    [i] occurs exactly [num_each[i]] times. *)
Theorem enumerate_grouped (fs : FS) (data_dir : string) (r : listing) :
  enumerate fs data_dir = Ok r ->
  image_files_list r = mjoin (image_files r) /\
  num_each r = len <$> image_files r /\
  StronglySorted Z.le (image_class r) /\
  (forall (i : nat) (n : Z), num_each r !! i = Some n ->
     Partition.count (Z.of_nat i) (image_class r) = n).
Proof.
  intros Hrun. apply enumerate_flat in Hrun as (_ & Heach & Hlist & Hclass).
  split; [done|]. split; [done|]. rewrite Hclass. split.
  - apply labels_of_sorted.
  - intros i n Hn. rewrite Heach, list_lookup_fmap in Hn.
    destruct (image_files r !! i) as [files|] eqn:Hfiles; [|done].
    injection Hn as <-. by apply labels_of_count.
Qed.

(** X5.  The cell returns whenever the data directory and each of its
    class directories can be listed, there is a first file and its size
    can be read: the result is then fixed by the listings. *)
Theorem enumerate_returns (fs : FS) (data_dir : string) (entries : list string)
    (contents : string -> list string) (first : string) (size : Z * Z) :
  let names :=
    sorted (filter (fun x => path_isdir fs (path_join data_dir [x])) entries) in
  let image_files :=
    (fun name => (fun x => path_join data_dir [name; x]) <$> contents name)
    <$> names in
  listdir fs data_dir = Ok entries ->
  (forall name, name ∈ names ->
     listdir fs (path_join data_dir [name]) = Ok (contents name)) ->
  mjoin image_files !! 0%nat = Some first ->
  image_size fs first = Ok size ->
  enumerate fs data_dir =
  Ok (mk names (length names) image_files (len <$> image_files)
         (mjoin image_files) (labels_of image_files)
         (length (labels_of image_files)) size.1 size.2).
Proof.
  intros names image_files Hentries Hlist Hfirst Hsize.
  unfold enumerate. rewrite Hentries. cbn [mbind result_bind]. fold names.
  rewrite (class_listings fs data_dir names contents Hlist).
  cbn [mbind result_bind]. fold image_files.
  assert (length names = length image_files) as Hlen
    by (subst image_files; by rewrite length_fmap).
  pose proof (class_sizes image_files) as Hsizes.
  pose proof (extend_rounds_forward image_files (length names) ltac:(lia))
    as Hextend.
  rewrite take_ge in Hextend by lia. rewrite <- Hlen in Hsizes.
  rewrite Hsizes. cbn [mbind result_bind].
  rewrite Hextend. cbn [mbind result_bind].
  rewrite (getitem_first _ _ Hfirst). cbn [mbind result_bind].
  rewrite Hsize. by destruct size.
Qed.

(** X6.  When every listing succeeds but finds no file at all (no class
    directory, or only empty ones) the cell raises [IndexError]: it reads
    the size of [image_files_list[0]]. *)
Theorem enumerate_no_files (fs : FS) (data_dir : string) (entries : list string) :
  let names :=
    sorted (filter (fun x => path_isdir fs (path_join data_dir [x])) entries) in
  listdir fs data_dir = Ok entries ->
  (forall name, name ∈ names ->
     listdir fs (path_join data_dir [name]) = Ok []) ->
  enumerate fs data_dir = Raise IndexError.
Proof.
  intros names Hentries Hlist.
  unfold enumerate. rewrite Hentries. cbn [mbind result_bind]. fold names.
  rewrite (class_listings fs data_dir names (fun _ => []) Hlist).
  cbn [mbind result_bind].
  set (image_files := _ <$> names).
  assert (length names = length image_files) as Hlen
    by (subst image_files; by rewrite length_fmap).
  pose proof (class_sizes image_files) as Hsizes.
  pose proof (extend_rounds_forward image_files (length names) ltac:(lia))
    as Hextend.
  rewrite take_ge in Hextend by lia. rewrite <- Hlen in Hsizes.
  rewrite Hsizes. cbn [mbind result_bind].
  rewrite Hextend. cbn [mbind result_bind].
  assert (mjoin image_files = []) as ->; [|done].
  apply join_nil_2, Forall_fmap, Forall_forall. by intros name _.
Qed.

(** X7.  Every index below [num_total], which is what the preview's
    [randint(num_total)] draws, reads without [IndexError]: it names a
    file of the list and, through its label, the class directory that file
    was listed in. *)
Theorem preview_subject (fs : FS) (data_dir : string) (r : listing) (k : Z) :
  enumerate fs data_dir = Ok r ->
  0 <= k < Z.of_nat (num_total r) ->
  exists path name xs x,
    Preview.subject r k = Ok (path, name) /\
    image_files_list r !! Z.to_nat k = Some path /\
    name ∈ class_names r /\
    listdir fs (path_join data_dir [name]) = Ok xs /\
    x ∈ xs /\ path = path_join data_dir [name; x].
Proof.
  intros Hrun Hk.
  apply enumerate_steps in Hrun
    as (entries & _ & _ & Hnum & Hfiles & Heach & Hloop & Htotal & _).
  rewrite Hnum in Hfiles, Heach, Hloop.
  apply image_files_listing in Hfiles as [_ Hfiles].
  apply num_each_lengths in Heach as [_ Heach].
  apply (extend_rounds fs data_dir _ _ _ _ _ Hfiles Heach) in Hloop
    as [Hrel _].
  pose proof (Forall2_length _ _ _ Hrel) as Hlen.
  destruct (lookup_lt_is_Some_2 (image_class r) (Z.to_nat k)) as [c Hc]; [lia|].
  destruct (lookup_lt_is_Some_2 (image_files_list r) (Z.to_nat k))
    as [path Hpath]; [lia|].
  destruct (Forall2_lookup_lr _ _ _ _ _ _ Hrel Hpath Hc)
    as (_ & name & xs & x & Hc0 & Hname & Hxs & Hx & ->).
  exists (path_join data_dir [name; x]), name, xs, x.
  split; [|split; [done|split; [by eapply list_elem_of_lookup_2|done]]].
  unfold Preview.subject.
  rewrite (getitem_nonneg _ k _ ltac:(lia) Hpath).
  rewrite (getitem_nonneg _ k _ ltac:(lia) Hc). cbn [mbind result_bind].
  by rewrite (getitem_nonneg _ c _ Hc0 Hname).
Qed.

End enumeration_extras.

Lemma enumerate_grouped_witness :
  exists r,
    Enumeration.enumerate (H := Demo.os) Demo.disk "/data/MedNIST" = Ok r /\
    StronglySorted Z.le (Enumeration.image_class r).
Proof.
  eexists. split; [reflexivity|].
  exact (proj1 (proj2 (proj2
    (enumerate_grouped (H := Demo.os) Demo.disk "/data/MedNIST" _ eq_refl)))).
Defined.

Lemma enumerate_returns_witness :
  Demo.list_dir Demo.disk "/data/MedNIST" = Ok ["Hand"; "README.md"; "CXR"] /\
  Enumeration.enumerate (H := Demo.os) Demo.disk "/data/MedNIST" =
  Ok (Enumeration.mk ["CXR"; "Hand"] 2
        [["/data/MedNIST/CXR/a.jpeg"];
         ["/data/MedNIST/Hand/1.jpeg"; "/data/MedNIST/Hand/0.jpeg"]]
        [1; 2]
        ["/data/MedNIST/CXR/a.jpeg"; "/data/MedNIST/Hand/1.jpeg";
         "/data/MedNIST/Hand/0.jpeg"]
        [0; 1; 1] 3 64 64).
Proof.
  split; [reflexivity|].
  refine (enumerate_returns (H := Demo.os) Demo.disk "/data/MedNIST"
            ["Hand"; "README.md"; "CXR"] Demo.contents
            "/data/MedNIST/CXR/a.jpeg" (64, 64) eq_refl _ eq_refl eq_refl).
  intros name Hin.
  change (name ∈ ["CXR"; "Hand"]) in Hin.
  apply elem_of_cons in Hin as [->|Hin]; [reflexivity|].
  apply elem_of_cons in Hin as [->|Hin]; [reflexivity|].
  by apply elem_of_nil in Hin.
Defined.

Lemma enumerate_no_files_witness :
  Demo.list_dir Demo.bare_disk "/bare/MedNIST" = Ok ["Hand"; "notes.txt"] /\
  Enumeration.enumerate (H := Demo.os) Demo.bare_disk "/bare/MedNIST" =
  Raise IndexError.
Proof.
  split; [reflexivity|].
  refine (enumerate_no_files (H := Demo.os) Demo.bare_disk "/bare/MedNIST"
            ["Hand"; "notes.txt"] eq_refl _).
  intros name Hin.
  change (name ∈ ["Hand"]) in Hin.
  apply elem_of_cons in Hin as [->|Hin]; [reflexivity|].
  by apply elem_of_nil in Hin.
Defined.

Lemma preview_subject_witness :
  exists r,
    Enumeration.enumerate (H := Demo.os) Demo.disk "/data/MedNIST" = Ok r /\
    0 <= 2 < Z.of_nat (Enumeration.num_total r) /\
    exists path name,
      Preview.subject r 2 = Ok (path, name) /\
      name ∈ Enumeration.class_names r.
Proof.
  eexists. split; [reflexivity|]. split; [simpl; lia|].
  destruct (preview_subject (H := Demo.os) Demo.disk "/data/MedNIST" _ 2
              eq_refl ltac:(simpl; lia))
    as (path & name & xs & x & Hsubject & _ & Hname & _).
  exists path, name. split; [exact Hsubject | exact Hname].
Defined.

(** ** Cells 22 and 32: steps per epoch *)

(** X8.  For a dataset of [length] items in batches of [batch_size], the
    [steps_per_epoch] of cell 32 is the number of batches, full or not:
    the least [s] with [length <= s * batch_size].  The total cell 22
    prints on its progress lines is the same number, except when
    [batch_size] divides [length], where it is one more. *)
Theorem steps_per_epoch_batches (length batch_size : Z) :
  0 <= length -> 0 < batch_size ->
  let s := Steps.steps_per_epoch length batch_size in
  (s - 1) * batch_size < length <= s * batch_size /\
  Steps.printed_total length batch_size =
    (if length mod batch_size =? 0 then s + 1 else s).
Proof.
  intros Hlen Hbs s. subst s.
  unfold Steps.steps_per_epoch, Steps.printed_total.
  pose proof (Z.div_mod length batch_size ltac:(lia)) as Hdiv.
  pose proof (Z.mod_pos_bound length batch_size Hbs) as Hmod.
  destruct (Z.eqb_spec (length mod batch_size) 0) as [H0|H0]; simpl;
    split; try done; nia.
Qed.

Lemma steps_per_epoch_batches_witness :
  0 <= 1024 /\ 0 < 512 /\
  Steps.steps_per_epoch 1024 512 = 2 /\ Steps.printed_total 1024 512 = 3.
Proof.
  split; [lia|]. split; [lia|].
  pose proof (steps_per_epoch_batches 1024 512 ltac:(lia) ltac:(lia)) as [_ Hp].
  split; [reflexivity | exact Hp].
Defined.

(** ** Cell 26: predictions on the test set *)

Section evaluation_facts.
Import Evaluation.

Lemma item_rounds (test_labels pred y_true y_pred : list Z) (k : nat) :
  (k <= length pred)%nat -> (k <= length test_labels)%nat ->
  for_each (item_body test_labels pred) (range k) (y_true, y_pred) =
  Ok (y_true ++ take k test_labels, y_pred ++ take k pred).
Proof.
  induction k as [|k IH]; intros Hp Hl.
  { simpl. by rewrite !take_0, !app_nil_r. }
  rewrite range_S, for_each_app, IH by lia. clear IH.
  destruct (lookup_lt_is_Some_2 test_labels k) as [t Ht]; [lia|].
  destruct (lookup_lt_is_Some_2 pred k) as [p Hpk]; [lia|].
  cbn [mbind result_bind for_each]. unfold item_body.
  rewrite (getitem_nat _ _ _ Ht), (getitem_nat _ _ _ Hpk). cbn.
  by rewrite (take_S_r _ _ _ Ht), (take_S_r _ _ _ Hpk), !app_assoc.
Qed.

Lemma collect_rounds (batches : list (list Z * list Z))
    (y_true y_pred : list Z) :
  Forall (fun batch => length batch.1 = length batch.2) batches ->
  for_each batch_body batches (y_true, y_pred) =
  Ok (y_true ++ mjoin (fst <$> batches), y_pred ++ mjoin (snd <$> batches)).
Proof.
  intros Hall. revert y_true y_pred.
  induction Hall as [|[test_labels pred] batches Hlen _ IH];
    intros y_true y_pred.
  { simpl. by rewrite !app_nil_r. }
  simpl in Hlen. cbn [for_each].
  change (batch_body (test_labels, pred) (y_true, y_pred))
    with (for_each (item_body test_labels pred) (range (length pred))
            (y_true, y_pred)).
  rewrite item_rounds by lia. cbn [mbind result_bind].
  rewrite IH, !take_ge by lia. cbn. by rewrite !app_assoc.
Qed.

(** X9.  When every batch has as many labels as predictions, the test
    cell returns [y_true] and [y_pred] as the batches' labels and
    predictions in loader order, item for item: the two lists have the
    same length and position [j] of both comes from the same test item. *)
Theorem collect_aligned (batches : list (list Z * list Z)) :
  Forall (fun batch => length batch.1 = length batch.2) batches ->
  collect batches = Ok (mjoin (fst <$> batches), mjoin (snd <$> batches)) /\
  length (mjoin (fst <$> batches)) = length (mjoin (snd <$> batches)) /\
  zip (mjoin (fst <$> batches)) (mjoin (snd <$> batches)) =
    mjoin ((fun batch => zip batch.1 batch.2) <$> batches).
Proof.
  intros Hall. split; [apply (collect_rounds batches [] [] Hall)|].
  induction Hall as [|[test_labels pred] batches Hlen _ [IHlen IHzip]];
    [done|].
  simpl in *. split.
  - rewrite !length_app. by f_equal.
  - rewrite zip_with_app by done. by f_equal.
Qed.

End evaluation_facts.

Lemma collect_aligned_witness :
  Forall (fun batch : list Z * list Z => length batch.1 = length batch.2)
    [([0; 1], [0; 0]); ([2], [2])] /\
  Evaluation.collect [([0; 1], [0; 0]); ([2], [2])] = Ok ([0; 1; 2], [0; 0; 2]).
Proof.
  assert (Forall (fun batch : list Z * list Z => length batch.1 = length batch.2)
            [([0; 1], [0; 0]); ([2], [2])]) as Hall
    by (repeat constructor).
  split; [exact Hall|].
  exact (proj1 (collect_aligned _ Hall)).
Defined.

(** ** Cell 32: the handlers *)

Lemma getitem_last {A} (l : list A) (x : A) : getitem (l ++ [x]) (-1) = Ok x.
Proof.
  unfold getitem, len. rewrite length_app. simpl.
  destruct (Z.ltb_spec (-1 + Z.of_nat (length l + 1)) 0) as [?|_]; [lia|].
  replace (Z.to_nat (-1 + Z.of_nat (length l + 1))) with (length l) by lia.
  by rewrite list_lookup_middle.
Qed.

Section ignite_facts.
Import Ignite.
Context {np : Numpy}.

(** The globals after the iterations of one epoch. *)
Lemma end_iter_rounds (s : globals) (its : list iteration) :
  foldl _end_iter s its =
  mk (step s + len its) (iter_losses s ++ (output <$> its))
     (batch_sizes s ++ (batch_len <$> its))
     (epoch_loss_values s) (metric_values s)
     (shown s ++ ((fun j : nat => step s + Z.of_nat j) <$> seq 0 (length its))).
Proof.
  revert s. induction its as [|it its IH]; intros s.
  { simpl. unfold len. simpl. rewrite Z.add_0_r, !app_nil_r. by destruct s. }
  cbn [foldl]. rewrite IH. unfold _end_iter, len. cbn [step iter_losses
    batch_sizes epoch_loss_values metric_values shown length fmap list_fmap].
  rewrite <- !app_assoc. cbn [app].
  f_equal; try lia. f_equal.
  cbn [seq fmap list_fmap]. f_equal; try lia.
  rewrite <- fmap_S_seq, <- list_fmap_compose.
  apply list_fmap_ext. intros _ j _. simpl. lia.
Qed.

Lemma epoch_body_eq (e : epoch) (s : globals) (scores : list Q) :
  epoch_body e (s, scores) =
  (s' ← run_validation (rocauc e) (foldl _end_iter s (iterations e));
   score ← _score s';
   Ok (s', scores ++ [score])).
Proof. reflexivity. Qed.

(** The run from any state that stands between two epochs. *)
Lemma run_from (epochs : list epoch) (s0 : globals) (scores0 : list Q) :
  Forall (fun e => iterations e <> [] /\
                   Forall (fun it => 0 < batch_len it) (iterations e)) epochs ->
  step s0 = 1 -> iter_losses s0 = [] -> batch_sizes s0 = [] ->
  exists s vs,
    for_each epoch_body epochs (s0, scores0) =
      Ok (s, scores0 ++ (rocauc <$> epochs)) /\
    step s = 1 /\ iter_losses s = [] /\ batch_sizes s = [] /\
    metric_values s = metric_values s0 ++ (rocauc <$> epochs) /\
    epoch_loss_values s = epoch_loss_values s0 ++ vs /\
    Forall2 (fun e v =>
               average (output <$> iterations e) (batch_len <$> iterations e)
               = Ok v) epochs vs /\
    shown s =
      shown s0 ++
      mjoin ((fun e => (fun j : nat => Z.of_nat j) <$>
                         seq 1 (length (iterations e))) <$> epochs).
Proof.
  intros Hall. revert s0 scores0.
  induction Hall as [|e epochs [Hne Hpos] _ IH];
    intros s0 scores0 Hstep Hlosses Hsizes.
  { exists s0, []. simpl. rewrite !app_nil_r. repeat split; done || constructor. }
  cbn [for_each]. rewrite epoch_body_eq.
  rewrite end_iter_rounds, Hstep, Hlosses, Hsizes. cbn [app].
  unfold run_validation. cbn [iter_losses batch_sizes].
  assert (exists v, average (output <$> iterations e)
                      (batch_len <$> iterations e) = Ok v) as [v Hv].
  { apply average_returns; [by destruct (iterations e)| |by apply Forall_fmap].
    by rewrite !length_fmap. }
  rewrite Hv. cbn [mbind result_bind epoch_loss_values metric_values shown].
  unfold _score. cbn [metric_values]. rewrite getitem_last.
  cbn [mbind result_bind].
  match goal with
  | |- context [for_each epoch_body epochs (?s1, ?sc)] =>
      destruct (IH s1 sc eq_refl eq_refl eq_refl)
        as (s & vs & Hrun & Hs1 & Hs2 & Hs3 & Hmv & Helv & Hvs & Hshown)
  end.
  exists s, (v :: vs). rewrite Hrun. cbn in Hmv, Helv, Hshown.
  rewrite Hmv, Helv, Hshown, <- !(assoc_L (++)).
  repeat split; try done.
  - by constructor.
  - cbn. rewrite <- ?(assoc_L (++)). do 2 f_equal.
    rewrite <- fmap_S_seq, <- list_fmap_compose.
    apply list_fmap_ext. intros _ j _. simpl. lia.
Qed.

(** X10.  In the Ignite loop, when every epoch has at least one iteration
    and batches are not empty, the handlers reset themselves between
    epochs: after the run [step] is 1 and the two per-iteration lists are
    empty, each entry of [epoch_loss_values] is the batch-size-weighted
    average of its own epoch's losses only, the progress lines count
    [1, 2, ..] afresh in every epoch, [metric_values] holds the epochs'
    ROC AUCs, and the score the checkpoint handler was given after each
    epoch is that epoch's ROC AUC. *)
Theorem ignite_run_resets (epochs : list epoch) :
  Forall (fun e => iterations e <> [] /\
                   Forall (fun it => 0 < batch_len it) (iterations e)) epochs ->
  exists s,
    run epochs = Ok (s, rocauc <$> epochs) /\
    step s = 1 /\ iter_losses s = [] /\ batch_sizes s = [] /\
    metric_values s = rocauc <$> epochs /\
    Forall2 (fun e v =>
               average (output <$> iterations e) (batch_len <$> iterations e)
               = Ok v) epochs (epoch_loss_values s) /\
    shown s =
      mjoin ((fun e => (fun j : nat => Z.of_nat j) <$>
                         seq 1 (length (iterations e))) <$> epochs).
Proof.
  intros Hall.
  destruct (run_from epochs initial [] Hall eq_refl eq_refl eq_refl)
    as (s & vs & Hrun & H1 & H2 & H3 & Hmv & Helv & Hvs & Hshown).
  exists s. simpl in *. subst vs. by repeat split.
Qed.

End ignite_facts.

Lemma ignite_run_resets_witness :
  Forall (fun e => Ignite.iterations e <> [] /\
                   Forall (fun it => 0 < Ignite.batch_len it)
                     (Ignite.iterations e)) Demo.epochs /\
  exists s,
    Ignite.run (np := Demo.numpy_average) Demo.epochs =
      Ok (s, [7 # 10; 9 # 10]%Q) /\
    Ignite.shown s = [1; 2; 1; 2].
Proof.
  assert (Forall (fun e => Ignite.iterations e <> [] /\
                   Forall (fun it => 0 < Ignite.batch_len it)
                     (Ignite.iterations e)) Demo.epochs) as Hall.
  { repeat constructor; done. }
  split; [exact Hall|].
  destruct (ignite_run_resets (np := Demo.numpy_average) Demo.epochs Hall)
    as (s & Hrun & _ & _ & _ & _ & _ & Hshown).
  exists s. split; [exact Hrun | exact Hshown].
Defined.

(** ** Cell 32: the final report *)

Section report_facts.
Import Training.

(** The running maximum is the first largest item seen. *)
Lemma max_fold (p l : list Q) (m0 : Q) (k0 : nat) :
  p !! k0 = Some m0 ->
  Forall (fun a => (a <= m0)%Q) p ->
  (forall (j : nat) a, (j < k0)%nat -> p !! j = Some a -> (a < m0)%Q) ->
  let m := foldl (fun m a => if gtb a m then a else m) m0 l in
  exists k : nat,
    (p ++ l) !! k = Some m /\
    Forall (fun a => (a <= m)%Q) (p ++ l) /\
    (forall (j : nat) a, (j < k)%nat -> (p ++ l) !! j = Some a -> (a < m)%Q).
Proof.
  revert p m0 k0. induction l as [|x l IH]; intros p m0 k0 Hk0 Hall Hfirst m.
  { exists k0. subst m. simpl. rewrite app_nil_r. done. }
  subst m. cbn [foldl].
  replace (p ++ x :: l) with ((p ++ [x]) ++ l) by (by rewrite <- app_assoc).
  destruct (gtb x m0) eqn:Hgt.
  - apply gtb_lt in Hgt. apply (IH (p ++ [x]) x (length p)).
    + by rewrite list_lookup_middle.
    + apply Forall_app. split; [|by repeat constructor; apply Qle_refl].
      eapply Forall_impl; [exact Hall|]. simpl. intros a Ha.
      apply Qlt_le_weak. by eapply Qle_lt_trans.
    + intros j a Hj Ha. rewrite lookup_app_l in Ha by done.
      eapply Qle_lt_trans; [|exact Hgt].
      by apply (Forall_lookup_1 _ _ _ _ Hall Ha).
  - apply gtb_le in Hgt. apply (IH (p ++ [x]) m0 k0).
    + rewrite lookup_app_l; [done|]. by eapply lookup_lt_Some.
    + apply Forall_app. split; [done|]. by repeat constructor.
    + intros j a Hj Ha. apply (Hfirst j a Hj).
      rewrite lookup_app_l in Ha; [done|].
      apply lookup_lt_Some in Hk0. lia.
Qed.

Lemma index_first (l : list Q) (k : nat) (m : Q) :
  l !! k = Some m ->
  (forall (j : nat) a, (j < k)%nat -> l !! j = Some a -> (a < m)%Q) ->
  Ignite.index l m = Ok (Z.of_nat k).
Proof.
  revert k. induction l as [|a l IH]; intros k Hk Hfirst; [done|].
  destruct k as [|k]; simpl in *.
  - injection Hk as ->. by rewrite (proj2 (Qeq_bool_iff m m) (Qeq_refl m)).
  - destruct (Qeq_bool a m) eqn:Heq.
    + apply Qeq_bool_iff in Heq.
      pose proof (Hfirst 0%nat a ltac:(lia) eq_refl) as Hlt.
      rewrite Heq in Hlt. by apply Qlt_irrefl in Hlt.
    + rewrite (IH k Hk); [simpl; f_equal; lia|].
      intros j b Hj Hb. apply (Hfirst (S j) b); [lia | done].
Qed.

(** X12.  On the AUC values of a training run (at least one epoch, all
    above -1) the last two lines of the Ignite cell find the same best
    value as the hand-rolled loop's [best_metric], but the epoch they
    print is the position counted from 0: one less than
    [best_metric_epoch], which counts epochs from 1. *)
Theorem report_counts_from_zero (epoch_num : nat) (run : Z -> epoch_run) :
  (1 <= epoch_num)%nat ->
  (forall k : nat, (k < epoch_num)%nat ->
     (-1 < auc_metric (run (Z.of_nat k)))%Q) ->
  let s := train epoch_num run in
  Ignite.report (metric_values s) =
  Ok (best_metric s, best_metric_epoch s - 1).
Proof.
  intros Hn Hauc s.
  pose proof (train_best epoch_num run Hauc) as Hbest. fold s in Hbest.
  destruct epoch_num as [|n]; [lia|].
  destruct Hbest as (k & Hk & Hepoch & Hbest & Hall & Hfirst).
  assert (forall j : nat, (j < S n)%nat ->
            metric_values s !! j = Some (auc_metric (run (Z.of_nat j))))
    as Hvalues.
  { intros j Hj. subst s. rewrite metric_values_train, list_lookup_fmap.
    by rewrite lookup_seq_lt. }
  assert (length (metric_values s) = S n) as Hlen.
  { subst s. by rewrite metric_values_train, length_fmap, length_seq. }
  destruct (metric_values s) as [|x l] eqn:Hl; [done|].
  destruct (max_fold [x] l x 0 eq_refl) as (k' & Hk' & Hle & Hlt).
  { repeat constructor. apply Qle_refl. }
  { intros j a Hj. lia. }
  set (m := foldl _ x l) in *. cbn [app] in Hk', Hle, Hlt.
  assert (k' < S n)%nat as Hk'n by (apply lookup_lt_Some in Hk'; lia).
  assert (k' = k) as ->.
  { destruct (Nat.lt_trichotomy k' k) as [Hlt'|[->|Hgt]]; [|done|]; exfalso.
    - pose proof (Hfirst k' Hlt') as Hless.
      rewrite Hvalues in Hk' by done. injection Hk' as Hm.
      pose proof (Forall_lookup_1 _ _ _ _ Hle (Hvalues k Hk)) as Hkm.
      simpl in Hkm. rewrite <- Hbest, <- Hm in Hkm.
      by apply (Qlt_not_le _ _ Hless).
    - pose proof (Hlt k _ Hgt (Hvalues k Hk)) as Hless.
      rewrite Hvalues in Hk' by done. injection Hk' as Hm.
      pose proof (Hall k' Hk'n) as Hkm. rewrite Hm, Hbest in Hkm.
      by apply (Qlt_not_le _ _ Hless). }
  assert (m = best_metric s) as Hm.
  { rewrite Hvalues in Hk' by done. injection Hk' as <-. done. }
  unfold Ignite.report. cbn [Ignite.max mbind result_bind]. fold m.
  rewrite Hm, (index_first (x :: l) k (best_metric s)).
  - cbn [mbind result_bind]. rewrite Hepoch. do 2 f_equal. lia.
  - by rewrite Hvalues, Hbest.
  - intros j a Hj Ha. rewrite Hvalues in Ha by lia. injection Ha as <-.
    by apply Hfirst.
Qed.

(** X13.  The checkpoint writes of the hand-rolled loop go forward: the
    epochs at which [torch.save] ran are strictly increasing numbers
    between 1 and [epoch_num], the AUCs it saved are strictly increasing
    too, none above the final [best_metric], and when the first epoch's
    AUC is above -1 the first epoch writes the file. *)
Theorem checkpoints_ascend (epoch_num : nat) (run : Z -> epoch_run) :
  let s := train epoch_num run in
  let auc_at := fun e : Z => auc_metric (run (e - 1)) in
  StronglySorted Z.lt (saved s) /\
  Forall (fun e => 1 <= e <= Z.of_nat epoch_num) (saved s) /\
  StronglySorted Qlt (auc_at <$> saved s) /\
  Forall (fun e => (auc_at e <= best_metric s)%Q) (saved s) /\
  ((1 <= epoch_num)%nat -> (-1 < auc_metric (run 0%Z))%Q ->
   head (saved s) = Some 1).
Proof.
  intros s auc_at. subst s.
  induction epoch_num as [|n (Hsorted & Hrange & Haucs & Hbest & Hhead)].
  { simpl. repeat split; try constructor. lia. }
  rewrite train_S.
  pose proof (epoch_body_best run (train n run) (Z.of_nat n))
    as (Hup & Hkeep & _). simpl in Hup, Hkeep.
  destruct (Qlt_le_dec (best_metric (train n run))
              (auc_metric (run (Z.of_nat n)))) as [Hlt|Hle].
  - destruct (Hup Hlt) as (-> & -> & _).
    assert (auc_at (Z.of_nat n + 1) = auc_metric (run (Z.of_nat n))) as Hnew.
    { unfold auc_at. do 2 f_equal. lia. }
    split; [|split; [|split; [|split]]].
    + apply StronglySorted_app_2; [|done|by repeat constructor].
      intros e1 e2 He1 He2. apply list_elem_of_singleton in He2 as ->.
      apply (proj1 (Forall_forall _ _) Hrange) in He1. lia.
    + apply Forall_app. split; [|repeat constructor; lia].
      eapply Forall_impl; [exact Hrange|]. simpl. lia.
    + rewrite fmap_app. apply StronglySorted_app_2; [|done|by repeat constructor].
      intros a1 a2 Ha1 Ha2. cbn in Ha2.
      apply list_elem_of_singleton in Ha2 as ->. rewrite Hnew.
      apply list_elem_of_fmap in Ha1 as (e & -> & He).
      eapply Qle_lt_trans; [|exact Hlt].
      by apply (proj1 (Forall_forall _ _) Hbest).
    + apply Forall_app. split.
      * eapply Forall_impl; [exact Hbest|]. simpl. intros e He.
        apply Qlt_le_weak. by eapply Qle_lt_trans.
      * repeat constructor. rewrite Hnew. apply Qle_refl.
    + intros _ H0. destruct n as [|n'].
      * by destruct (saved (train 0 run)) eqn:Hs.
      * specialize (Hhead ltac:(lia) H0).
        by destruct (saved (train (S n') run)).
  - destruct (Hkeep Hle) as (-> & -> & _).
    split; [done|]. split; [|split; [done|split; [done|]]].
    + eapply Forall_impl; [exact Hrange|]. simpl. lia.
    + intros _ H0. destruct n as [|n']; [|apply Hhead; [lia|done]].
      exfalso. simpl in Hle. by apply (Qlt_not_le _ _ H0).
Qed.

End report_facts.

Lemma report_counts_from_zero_witness :
  (1 <= 3)%nat /\
  Ignite.report (Training.metric_values (Training.train 3 Demo.run)) =
  Ok ((9 # 10)%Q, 1).
Proof.
  split; [lia|].
  refine (report_counts_from_zero 3 Demo.run ltac:(lia) _).
  intros k Hk. unfold Demo.run. simpl.
  destruct (Z.of_nat k =? 1); reflexivity.
Defined.

(** ** Cells 36 and 18 together: datasets made from a split *)

Lemma select_subset {A} (g : Z) (gs : list Z) (items : list A) (x : A) :
  x ∈ Partition.select g gs items -> x ∈ items.
Proof.
  unfold Partition.select. intros Hx.
  apply list_elem_of_fmap in Hx as ([g' y] & -> & Hy).
  apply list_elem_of_filter in Hy as [_ Hy]. simpl.
  by apply elem_of_zip_r in Hy.
Qed.

Lemma dataset_pair {T} (xs : list string) (ys : list Z)
    (transforms : string -> result T) (index : Z) :
  length xs = length ys ->
  0 <= index < Dataset.__len__ (Dataset.__init__ xs ys transforms) ->
  exists file label,
    (file, label) ∈ zip xs ys /\
    Dataset.__getitem__ (Dataset.__init__ xs ys transforms) index =
    (image ← transforms file; Ok (image, label)).
Proof.
  unfold Dataset.__len__, Dataset.__init__, Dataset.__getitem__, len. simpl.
  intros Hlen Hindex.
  destruct (lookup_lt_is_Some_2 xs (Z.to_nat index)) as [file Hfile]; [lia|].
  destruct (lookup_lt_is_Some_2 ys (Z.to_nat index)) as [label Hlabel]; [lia|].
  exists file, label. split.
  - apply list_elem_of_lookup. exists (Z.to_nat index).
    by rewrite lookup_zip_with, Hfile, Hlabel.
  - rewrite (getitem_nonneg xs index file) by (done || lia).
    cbn [mbind result_bind].
    destruct (transforms file) as [image|e]; [|done]. cbn [mbind result_bind].
    by rewrite (getitem_nonneg ys index label) by (done || lia).
Qed.

Section split_datasets.
Import Partition.
Context `{NumpyRandom} {T : Type}.

(** X14.  The three datasets built from the revised split can be read at
    every index below their [__len__]: no subscript raises, the only
    failure left is the transform's, and the item is the transformed file
    with the label that file had in the input lists. *)
Theorem split_datasets_load (seed : Z) (num_total : nat)
    (image_files_list : list string) (image_class : list Z)
    (g : RandomState) (transforms : string -> result T) :
  length image_files_list = num_total ->
  length image_class = num_total ->
  exists l,
    (split_by_groups seed num_total image_files_list image_class g).1 = Ok l /\
    forall xs ys,
      (xs, ys) ∈ [(train_x l, train_y l); (val_x l, val_y l);
                  (test_x l, test_y l)] ->
      forall index,
        0 <= index < Dataset.__len__ (Dataset.__init__ xs ys transforms) ->
        exists file label,
          (file, label) ∈ zip image_files_list image_class /\
          Dataset.__getitem__ (Dataset.__init__ xs ys transforms) index =
          (image ← transforms file; Ok (image, label)).
Proof.
  intros Hfiles Hclasses. rewrite split_by_groups_unfold.
  set (groups := (shuffle (new_state seed) (initial_groups num_total)).1).
  assert (groups ≡ₚ initial_groups num_total) as Hperm by apply shuffle_perm.
  assert (length groups = num_total) as Hlen.
  { rewrite Hperm. apply initial_groups_length. }
  assert (Forall (fun g => 0 <= g < 3) groups) as Hrange.
  { rewrite Hperm. apply initial_groups_range. }
  rewrite (assign_rounds_prefix groups _ _ num_total Hrange) by lia.
  rewrite !take_ge by lia. cbn.
  eexists. split; [reflexivity|]. cbn.
  assert (forall c xs ys,
            xs = select c groups image_files_list ->
            ys = select c groups image_class ->
            forall index,
              0 <= index < Dataset.__len__ (Dataset.__init__ xs ys transforms) ->
              exists file label,
                (file, label) ∈ zip image_files_list image_class /\
                Dataset.__getitem__ (Dataset.__init__ xs ys transforms) index =
                (image ← transforms file; Ok (image, label))) as Hset.
  { intros c xs ys -> -> index Hindex.
    destruct (dataset_pair (select c groups image_files_list)
                (select c groups image_class) transforms index)
      as (file & label & Hin & Hget); [|exact Hindex|].
    { pose proof (length_select c groups image_files_list ltac:(lia)) as H1.
      pose proof (length_select c groups image_class ltac:(lia)) as H2.
      unfold len in *. lia. }
    exists file, label. split; [|done].
    rewrite <- select_zip in Hin. by eapply select_subset. }
  intros xs ys Hin.
  apply elem_of_cons in Hin as [[= -> ->]|Hin]; [by apply (Hset 0)|].
  apply elem_of_cons in Hin as [[= -> ->]|Hin]; [by apply (Hset 1)|].
  apply elem_of_cons in Hin as [[= -> ->]|Hin]; [by apply (Hset 2)|].
  by apply elem_of_nil in Hin.
Qed.

End split_datasets.

Lemma split_datasets_load_witness :
  length Demo.files = 10%nat /\ length Demo.classes = 10%nat /\
  exists l,
    (Partition.split_by_groups (H := Demo.numpy) Partition.dataset_seed 10
       Demo.files Demo.classes 0).1 = Ok l /\
    exists file label,
      (file, label) ∈ zip Demo.files Demo.classes /\
      Dataset.__getitem__
        (Dataset.__init__ (Partition.val_x l) (Partition.val_y l)
           (fun file => Ok (String.length file))) 0 =
      Ok (String.length file, label).
Proof.
  split; [reflexivity|]. split; [reflexivity|].
  destruct (split_datasets_load (H := Demo.numpy) Partition.dataset_seed 10
              Demo.files Demo.classes 0 (fun file => Ok (String.length file))
              eq_refl eq_refl) as (l & Hl & Hload).
  exists l. split; [exact Hl|].
  vm_compute in Hl. injection Hl as <-.
  destruct (Hload _ _ (list_elem_of_further _ _ _ (list_elem_of_here _ _)) 0)
    as (file & label & Hin & Hget).
  { vm_compute. split; congruence. }
  exists file, label. split; [exact Hin | exact Hget].
Defined.

(** ** Cell 10: a first file that cannot be opened *)

Section enumeration_unreadable.
Import Enumeration.
Context `{OS}.

(** X15.  When every listing succeeds and there is a first file, but
    reading its size raises, cell 10 raises the same exception. *)
Theorem enumerate_unreadable_first (fs : FS) (data_dir : string)
    (entries : list string) (contents : string -> list string)
    (first : string) (e : exn) :
  let names :=
    sorted (filter (fun x => path_isdir fs (path_join data_dir [x])) entries) in
  let image_files :=
    (fun name => (fun x => path_join data_dir [name; x]) <$> contents name)
    <$> names in
  listdir fs data_dir = Ok entries ->
  (forall name, name ∈ names ->
     listdir fs (path_join data_dir [name]) = Ok (contents name)) ->
  mjoin image_files !! 0%nat = Some first ->
  image_size fs first = Raise e ->
  enumerate fs data_dir = Raise e.
Proof.
  intros names image_files Hentries Hlist Hfirst Hsize.
  unfold enumerate. rewrite Hentries. cbn [mbind result_bind]. fold names.
  rewrite (class_listings fs data_dir names contents Hlist).
  cbn [mbind result_bind]. fold image_files.
  assert (length names = length image_files) as Hlen
    by (subst image_files; by rewrite length_fmap).
  pose proof (class_sizes image_files) as Hsizes.
  pose proof (extend_rounds_forward image_files (length names) ltac:(lia))
    as Hextend.
  rewrite take_ge in Hextend by lia. rewrite <- Hlen in Hsizes.
  rewrite Hsizes. cbn [mbind result_bind].
  rewrite Hextend. cbn [mbind result_bind].
  rewrite (getitem_first _ _ Hfirst). cbn [mbind result_bind].
  by rewrite Hsize.
Qed.

End enumeration_unreadable.

Lemma enumerate_unreadable_first_witness :
  Demo.list_dir Demo.disk "/data/MedNIST" = Ok ["Hand"; "README.md"; "CXR"] /\
  Enumeration.enumerate (H := Demo.broken_os) Demo.disk "/data/MedNIST" =
  Raise (LibraryError "UnidentifiedImageError").
Proof.
  split; [reflexivity|].
  refine (enumerate_unreadable_first (H := Demo.broken_os) Demo.disk
            "/data/MedNIST" ["Hand"; "README.md"; "CXR"] Demo.contents
            "/data/MedNIST/CXR/a.jpeg" _ eq_refl _ eq_refl eq_refl).
  intros name Hin.
  change (name ∈ ["CXR"; "Hand"]) in Hin.
  apply elem_of_cons in Hin as [->|Hin]; [reflexivity|].
  apply elem_of_cons in Hin as [->|Hin]; [reflexivity|].
  by apply elem_of_nil in Hin.
Defined.
